(** * Voice-channel session tracker and daily aggregation

    A shallow embedding of [bot.py]: the presence handler
    [VcNotifier.on_voice_state_update], the rollover task
    [VcNotifier.daily_summary], the notifier ([VcNotifier.notify],
    [send_to_channel]), the persisted documents
    ([save_persisted_dest_channel_id], [load_persisted_dest_channel_id],
    [_save_daily_totals], [_load_daily_totals]), the configuration
    ([Config.load]), the start of the cog and the admin commands.

    Modelling conventions.
    - Python [int] is [Z].  The integers that the program turns into text
      (ids and whole seconds) are far below the limit of 4300 digits that
      the runtime puts on conversions between [int] and [str]; the limit
      is modelled where [int] parses a text from outside (an environment
      variable, a string of the config document).
    - Python [float] (clock readings of [time.time()], session durations,
      accumulated totals) is modelled by exact rationals [Q]: the rounding of
      binary floating-point arithmetic is not modelled, and there is no
      infinity or NaN.
    - A [str] that the program only passes on or concatenates (names,
      messages, file contents) is the [string] of its UTF-8 bytes; a [str]
      whose characters the program inspects is the list of its code points
      (module [Unicode]).
    - [dict] is [gmap], [set] is [gset].  The iteration order of a dict is
      not modelled: [map_to_list] fixes some order, which shows in the
      order of the members of the totals document only.  The iteration
      order of the active set is an input of the rollover tick.
    - A coroutine is a computation in the monad [M]: it threads the cog's
      fields, the files of the data directory and the trace of observable
      events, and ends by returning or by raising.  One handler runs at a
      time (the event loop is cooperative and the model does not interleave
      handlers at their await points). *)

From Stdlib Require Import ZArith QArith String Ascii.
From Stdlib Require Import Decimal DecimalString DecimalPos DecimalZ Lia.
From stdpp Require Import gmap strings.

Local Open Scope Z_scope.

(** ** Python primitives *)

Module Py.

(** [str(n)] and [f"{n}"] for an [int]. *)
Definition str (n : Z) : string := NilZero.string_of_int (Z.to_int n).

(** [int(s)] for a [str] made of an optional minus sign and decimal digits;
    [None] stands for [ValueError].  (Python also accepts surrounding
    white space, a plus sign and underscores between digits; these
    spellings are outside the modelled fragment.) *)
Definition int_of_str (s : string) : option Z :=
  Z.of_int <$> NilZero.int_of_string s.

(** [int(x)] for a [float]: truncation toward zero. *)
Definition int (x : Q) : Z := Z.quot (Qnum x) (Zpos (Qden x)).

(** [divmod(a, b)] on [int]: floor division and the matching remainder. *)
Definition divmod (a b : Z) : Z * Z := (a / b, a mod b).

(** Truth value of a [float]: zero is false. *)
Definition truthy (x : Q) : bool := negb (Qeq_bool x 0).

(** Truth value of an [Optional[int]]: [None] and [0] are false. *)
Definition truthy_opt (x : option Z) : bool :=
  match x with
  | None => false
  | Some n => negb (n =? 0)
  end.

Definition nl : string := String "010"%char EmptyString.

(** [sep.join(l)]. *)
Fixpoint join (sep : string) (l : list string) : string :=
  match l with
  | [] => EmptyString
  | [s] => s
  | s :: rest => s +:+ sep +:+ join sep rest
  end.

End Py.

(** ** Characters *)

(** The characters of [str(n)]: decimal digits and the minus sign. *)
Definition numeric (c : ascii) : bool :=
  match c with
  | "0" | "1" | "2" | "3" | "4" | "5" | "6" | "7" | "8" | "9" | "-" => true
  | _ => false
  end%char.

(** Every character of [s] satisfies [P]. *)
Fixpoint sforall (P : ascii → bool) (s : string) : bool :=
  match s with
  | EmptyString => true
  | String c rest => P c && sforall P rest
  end.

(** ** Duration formatting *)

(** The nested function [fmt] of the leave branch. *)
Definition fmt (sec : Q) : string :=
  if Qlt_le_dec sec 60 then
    Py.str (Py.int sec) +:+ "秒"
  else if Qlt_le_dec sec 3600 then
    let '(m, s) := Py.divmod (Py.int sec) 60 in
    Py.str m +:+ "分" +:+ Py.str s +:+ "秒"
  else
    let '(h, rem) := Py.divmod (Py.int sec) 3600 in
    let '(m, s) := Py.divmod rem 60 in
    Py.str h +:+ "時間" +:+ Py.str m +:+ "分" +:+ Py.str s +:+ "秒".

(** The inline formatting of [daily_summary], applied to
    [total = int(self.daily_total.get(uid, 0))]. *)
Definition t_str (total : Z) : string :=
  if decide (total < 60) then
    Py.str total +:+ "秒"
  else if decide (total < 3600) then
    let '(m, s) := Py.divmod total 60 in
    Py.str m +:+ "分" +:+ Py.str s +:+ "秒"
  else
    let '(h, rem) := Py.divmod total 3600 in
    let '(m, s) := Py.divmod rem 60 in
    Py.str h +:+ "時間" +:+ Py.str m +:+ "分" +:+ Py.str s +:+ "秒".

(** ** Text of the persisted documents *)

(** The text of a [float] inside a JSON document is produced by Python's
    [float.__repr__] and read back by the [json] scanner followed by
    [float(v)].  Both belong to the Python runtime; the model takes them as
    an interface.  [float_of_json tok] is the float obtained from the scalar
    token [tok], [None] when the scanner or [float(v)] raises. *)
Class FloatText := {
  float_repr : Q → string;
  float_of_json : string → option Q
}.

Module Json.

Definition dquote : ascii := "034"%char.
Definition backslash : ascii := "092"%char.
Definition nl : string := Py.nl.

Definition quoted (s : string) : string :=
  String dquote (s +:+ String dquote EmptyString).

(** One [key: value] line of [json.dump(..., indent=2)]; the value is
    already rendered. *)
Definition item (kv : string * string) : string :=
  quoted kv.1 +:+ ": " +:+ kv.2.

Fixpoint more_items (l : list (string * string)) : string :=
  match l with
  | [] => EmptyString
  | kv :: rest => "," +:+ nl +:+ "  " +:+ item kv +:+ more_items rest
  end.

(** [json.dumps(obj, indent=2)] for a flat object given by its rendered
    members. *)
Definition dumps_object (l : list (string * string)) : string :=
  match l with
  | [] => "{}"
  | kv :: rest =>
      "{" +:+ nl +:+ "  " +:+ item kv +:+ more_items rest +:+ nl +:+ "}"
  end.

(** The scanner for flat objects: white space between tokens, keys in double
    quotes, values as unquoted scalar tokens (numbers, [null]).  It is a
    one-pass automaton over the characters.  Escape sequences in keys and
    values that are strings, arrays or objects are outside the modelled
    fragment and make the scanner fail. *)
Inductive pstate :=
  | PStart
  | PFirst
  | PKey (acc : list (string * string)) (key : string)
  | PColon (acc : list (string * string)) (key : string)
  | PValue0 (acc : list (string * string)) (key : string)
  | PValue (acc : list (string * string)) (key : string) (tok : string)
  | PNext (acc : list (string * string))
  | PMember (acc : list (string * string))
  | PDone (acc : list (string * string))
  | PFail.

Definition is_ws (c : ascii) : bool :=
  (Ascii.eqb c " " || Ascii.eqb c "010" || Ascii.eqb c "013"
   || Ascii.eqb c "009")%char.

(** Characters that may occur in an unquoted scalar token. *)
Definition is_plain (c : ascii) : bool :=
  negb (is_ws c || Ascii.eqb c "," || Ascii.eqb c "}" || Ascii.eqb c "{"
        || Ascii.eqb c "[" || Ascii.eqb c "]" || Ascii.eqb c ":"
        || Ascii.eqb c dquote)%char.

Definition snoc (s : string) (c : ascii) : string :=
  s +:+ String c EmptyString.

Definition pstep (st : pstate) (c : ascii) : pstate :=
  match st with
  | PStart =>
      if is_ws c then PStart
      else if Ascii.eqb c "{" then PFirst else PFail
  | PFirst =>
      if is_ws c then PFirst
      else if Ascii.eqb c dquote then PKey [] EmptyString
      else if Ascii.eqb c "}" then PDone [] else PFail
  | PKey acc key =>
      if Ascii.eqb c dquote then PColon acc key
      else if Ascii.eqb c backslash then PFail
      else PKey acc (snoc key c)
  | PColon acc key =>
      if is_ws c then PColon acc key
      else if Ascii.eqb c ":" then PValue0 acc key else PFail
  | PValue0 acc key =>
      if is_ws c then PValue0 acc key
      else if is_plain c then PValue acc key (String c EmptyString)
      else PFail
  | PValue acc key tok =>
      if is_ws c then PNext (acc ++ [(key, tok)])
      else if Ascii.eqb c "," then PMember (acc ++ [(key, tok)])
      else if Ascii.eqb c "}" then PDone (acc ++ [(key, tok)])
      else if is_plain c then PValue acc key (snoc tok c)
      else PFail
  | PNext acc =>
      if is_ws c then PNext acc
      else if Ascii.eqb c "," then PMember acc
      else if Ascii.eqb c "}" then PDone acc else PFail
  | PMember acc =>
      if is_ws c then PMember acc
      else if Ascii.eqb c dquote then PKey acc EmptyString else PFail
  | PDone acc => if is_ws c then PDone acc else PFail
  | PFail => PFail
  end.

Fixpoint prun (st : pstate) (s : string) : pstate :=
  match s with
  | EmptyString => st
  | String c rest => prun (pstep st c) rest
  end.

(** [json.loads(text).items()] for a flat object: the members in document
    order, values as their token text; [None] when the text is not such a
    document. *)
Definition loads_object (text : string) : option (list (string * string)) :=
  match prun PStart text with
  | PDone acc => Some acc
  | _ => None
  end.

(** Characters allowed inside a key. *)
Definition key_char (c : ascii) : bool :=
  negb (Ascii.eqb c dquote || Ascii.eqb c backslash).

(** A member whose key and value the scanner can read back. *)
Definition readable (kv : string * string) : Prop :=
  sforall key_char kv.1 = true ∧ kv.2 ≠ EmptyString
  ∧ sforall is_plain kv.2 = true.

End Json.

(** ** Files of the data directory *)

Definition CONFIG_PATH : string := "data/config.json".
Definition CONFIG_TMP_PATH : string := "data/config.json.tmp".
Definition DAILY_TOTALS_PATH : string := "data/daily_totals.json".

(** The file-system calls a save makes, in program order.  A crash stops the
    sequence after any prefix.  The calls themselves do not fail in the
    model, so the [except] branches of the two saves (log the error and
    return) do not occur; directories are not modelled and
    [_ensure_data_dir] has no effect on the files. *)
Inductive fs_op :=
  | Open_w (p : string)               (* open(p, "w"): create or truncate *)
  | Write (p : string) (data : string) (* the buffered text reaches the file *)
  | Replace (src dst : string).        (* Path.replace: atomic rename *)

Definition fs_step (fs : gmap string string) (op : fs_op)
  : gmap string string :=
  match op with
  | Open_w p => <[p := EmptyString]> fs
  | Write p data => alter (fun old => old +:+ data) p fs
  | Replace src dst =>
      match fs !! src with
      | Some text => <[dst := text]> (delete src fs)
      | None => fs
      end
  end.

Definition fs_run (ops : list fs_op) (fs : gmap string string)
  : gmap string string :=
  foldl fs_step fs ops.

(** What a reader of [p] can observe while [ops] run: the content of [p]
    before the first call and after each call. *)
Fixpoint observations (p : string) (ops : list fs_op)
    (fs : gmap string string) : list (option string) :=
  fs !! p ::
  match ops with
  | [] => []
  | op :: rest => observations p rest (fs_step fs op)
  end.

(** [json.dumps({"dest_channel_id": ch_id}, indent=2)]. *)
Definition config_text (ch_id : option Z) : string :=
  Json.dumps_object
    [("dest_channel_id", match ch_id with
                         | Some n => Py.str n
                         | None => "null"
                         end)].

(** The body of [save_persisted_dest_channel_id]. *)
Definition save_persisted_dest_channel_id_ops (ch_id : option Z)
  : list fs_op :=
  [Open_w CONFIG_TMP_PATH;
   Write CONFIG_TMP_PATH (config_text ch_id);
   Replace CONFIG_TMP_PATH CONFIG_PATH].

(** A member of the totals as [json.dump] renders it: the [int] key
    becomes a string, the value is the text of the float. *)
Definition encode {FT : FloatText} (kv : Z * Q) : string * string :=
  (Py.str kv.1, float_repr kv.2).

(** [json.dumps(self.daily_total, indent=2)]: [int] keys are written as
    strings. *)
Definition totals_text {FT : FloatText} (daily_total : gmap Z Q) : string :=
  Json.dumps_object (encode <$> map_to_list daily_total).

(** The body of [_save_daily_totals]. *)
Definition _save_daily_totals_ops {FT : FloatText} (daily_total : gmap Z Q)
  : list fs_op :=
  [Open_w DAILY_TOTALS_PATH;
   Write DAILY_TOTALS_PATH (totals_text daily_total)].

(** [{int(k): float(v) for k, v in items}]; [None] when a conversion
    raises. *)
Definition dict_of_items {FT : FloatText} (items : list (string * string))
  : option (gmap Z Q) :=
  foldl (λ acc kv,
           d ← acc; k ← Py.int_of_str kv.1; v ← float_of_json kv.2;
           Some (<[k := v]> d))
        (Some ∅) items.

(** ** The bot, the cog and the coroutine monad *)

Inductive exn :=
  | TypeError
  | Forbidden
  | OtherException (name : string).

Inductive level := INFO | WARNING | ERROR.

(** What an observer sees of a run: log records (logger name and format
    string) and messages delivered to a channel, with the
    [suppress_notifications] flag they were sent with. *)
Inductive event :=
  | Log (lvl : level) (logger : string) (text : string)
  | Sent (channel : Z) (content : string) (suppress_notifications : bool).

(** The [VcBot] as the cog uses it.  The Discord side is an oracle: the
    channel cache, the channel fetch, the outcome of a [send] call ([None]
    when it returns, [Some e] when it raises [e]) and the user cache, which
    yields the display name. *)
Record bot := {
  target_vc_id : Z;
  get_channel : Z → option Z;
  fetch_channel : Z → exn + Z;
  send : Z → string → bool → option exn;
  get_user : Z → option string
}.

Record channel := { ch_id : Z; ch_name : string }.
Record member := { m_id : Z; m_bot : bool; display_name : string }.
Record voice_state := { vs_channel : option channel }.

(** The fields of [VcNotifier], the files of the data directory and the
    events observed so far (oldest first). *)
Record cog := {
  dest_channel_id : option Z;
  join_times : gmap Z Q;
  daily_total : gmap Z Q;
  active_users : gset Z;
  files : gmap string string;
  trace : list event
}.

Definition with_join_times (f : gmap Z Q → gmap Z Q) (c : cog) : cog :=
  {| dest_channel_id := dest_channel_id c; join_times := f (join_times c);
     daily_total := daily_total c; active_users := active_users c;
     files := files c; trace := trace c |}.

Definition with_daily_total (f : gmap Z Q → gmap Z Q) (c : cog) : cog :=
  {| dest_channel_id := dest_channel_id c; join_times := join_times c;
     daily_total := f (daily_total c); active_users := active_users c;
     files := files c; trace := trace c |}.

Definition with_active_users (f : gset Z → gset Z) (c : cog) : cog :=
  {| dest_channel_id := dest_channel_id c; join_times := join_times c;
     daily_total := daily_total c; active_users := f (active_users c);
     files := files c; trace := trace c |}.

Definition with_files (f : gmap string string → gmap string string)
    (c : cog) : cog :=
  {| dest_channel_id := dest_channel_id c; join_times := join_times c;
     daily_total := daily_total c; active_users := active_users c;
     files := f (files c); trace := trace c |}.

Definition with_trace (f : list event → list event) (c : cog) : cog :=
  {| dest_channel_id := dest_channel_id c; join_times := join_times c;
     daily_total := daily_total c; active_users := active_users c;
     files := files c; trace := f (trace c) |}.

Inductive result (A : Type) :=
  | Return (a : A)
  | Raise (e : exn).
Arguments Return {A} a.
Arguments Raise {A} e.

Definition M (A : Type) : Type := cog → result A * cog.

Definition ret {A} (a : A) : M A := λ c, (Return a, c).

Definition bind {A B} (m : M A) (k : A → M B) : M B :=
  λ c, match m c with
       | (Return a, c') => k a c'
       | (Raise e, c') => (Raise e, c')
       end.

Definition raise {A} (e : exn) : M A := λ c, (Raise e, c).
Definition get : M cog := λ c, (Return c, c).
Definition modify (f : cog → cog) : M unit := λ c, (Return tt, f c).
Definition emit (e : event) : M unit := modify (with_trace (λ t, t ++ [e])).

Notation "'let*' x := m 'in' k" := (bind m (λ x, k))
  (at level 10, x name, m at level 100, k at level 200).
Notation "m >> k" := (bind m (λ _, k))
  (at level 90, right associativity).

(** [frame c c']: [c'] differs from [c] at most in its trace. *)
Definition frame (c c' : cog) : Prop :=
  dest_channel_id c' = dest_channel_id c
  ∧ join_times c' = join_times c
  ∧ daily_total c' = daily_total c
  ∧ active_users c' = active_users c
  ∧ files c' = files c.

(** The cog with the given open sessions and nothing else. *)
Definition blank (jt : gmap Z Q) : cog :=
  {| dest_channel_id := None; join_times := jt; daily_total := ∅;
     active_users := ∅; files := ∅; trace := [] |}.

Ltac run_monad :=
  unfold bind, get, emit, modify, raise, ret in *; simpl in *.

(** ** Persistence inside the cog *)

Section Cog.
Context {FT : FloatText}.

Definition _save_daily_totals : M unit :=
  let* c := get in
  modify (with_files (fs_run (_save_daily_totals_ops (daily_total c)))) >>
  emit (Log INFO "VcNotifier" "daily_totals.json に合計滞在時間を保存しました。").

(** [_load_daily_totals] reads the files only; it returns the mapping and
    the log record of a failed load. *)
Definition _load_daily_totals (fs : gmap string string)
  : gmap Z Q * list event :=
  match fs !! DAILY_TOTALS_PATH with
  | Some text =>
      match Json.loads_object text ≫= dict_of_items with
      | Some d => (d, [])
      | None =>
          (∅, [Log WARNING "VcNotifier" "daily_totals.json 読み込み失敗: %s"])
      end
  | None => (∅, [])
  end.

Definition save_persisted_dest_channel_id (ch_id : option Z) : M unit :=
  modify (with_files (fs_run (save_persisted_dest_channel_id_ops ch_id))) >>
  emit (Log INFO "Persist" "通知先（dest_channel_id=%s）を保存しました。").

(** ** Notifier *)

Definition send_to_channel (b : bot) (channel_id : Z) (content : string)
  : M unit :=
  let attempt (ch : Z) : M unit :=
    match send b ch content true with
    | None => emit (Sent ch content true)
    | Some TypeError =>
        match send b ch content false with
        | None => emit (Sent ch content false)
        | Some e => raise e
        end
    | Some Forbidden =>
        emit (Log ERROR "Send" "送信権限が不足しています（Send Messages）。")
    | Some (OtherException _) =>
        emit (Log ERROR "Send" "通知送信失敗: %s")
    end in
  match get_channel b channel_id with
  | Some ch => attempt ch
  | None =>
      match fetch_channel b channel_id with
      | inr ch => attempt ch
      | inl _ => emit (Log ERROR "Send" "チャンネル取得に失敗: %s")
      end
  end.

Definition notify (b : bot) (message : string) : M unit :=
  let* c := get in
  if negb (Py.truthy_opt (dest_channel_id c)) then
    emit (Log WARNING "VcNotifier"
            "通知先が未設定です。/admin setchannel を実行してください。")
  else
    send_to_channel b (default 0 (dest_channel_id c)) message.

(** ** Presence handler *)

Definition entered_message (m : member) (ch : channel) : string :=
  "**" +:+ display_name m +:+ "** が **" +:+ ch_name ch
  +:+ "** に参加しました".

Definition left_message (m : member) (ch : channel) (stay total : Q)
  : string :=
  "**" +:+ display_name m +:+ "** が **" +:+ ch_name ch
  +:+ "** から退出しました（滞在 " +:+ fmt stay +:+ "／累計 " +:+ fmt total
  +:+ "）".

(** The enter branch; [now] is what [time.time()] returns there. *)
Definition enter (b : bot) (now : Q) (m : member) (ch : channel) : M unit :=
  modify (with_join_times (insert (m_id m) now)) >>
  modify (with_active_users (λ s, {[m_id m]} ∪ s)) >>
  notify b (entered_message m ch).

(** The leave branch; [now] is what [time.time()] returns there. *)
Definition leave (b : bot) (now : Q) (m : member) (ch : channel) : M unit :=
  let* c := get in
  let join_time := join_times c !! m_id m in
  modify (with_join_times (delete (m_id m))) >>
  match join_time with
  | Some t =>
      if Py.truthy t then
        let stay := (now - t)%Q in
        modify (with_daily_total (λ d,
          <[m_id m := (default 0%Q (d !! m_id m) + stay)%Q]> d)) >>
        _save_daily_totals >>
        let* c := get in
        notify b (left_message m ch stay
                    (default 0%Q (daily_total c !! m_id m)))
      else ret tt
  | None => ret tt
  end.

Definition on_voice_state_update (b : bot) (now : Q) (m : member)
    (before after : voice_state) : M unit :=
  if m_bot m then ret tt
  else
    let target := target_vc_id b in
    let before_id := ch_id <$> vs_channel before in
    let after_id := ch_id <$> vs_channel after in
    if negb (bool_decide (Some target = before_id)
             || bool_decide (Some target = after_id)) then ret tt
    else
      match vs_channel before, vs_channel after with
      | None, Some ch => enter b now m ch
      | Some ch, None => leave b now m ch
      | _, _ => ret tt
      end.

(** ** Rollover *)

(** [datetime.now(JST)] for a clock that reads [epoch] seconds since
    1970-01-01 00:00 UTC: the hour and the minute at the fixed offset of nine
    hours. *)
Definition JST : Z := 9 * 3600.
Definition hour (epoch : Z) : Z := ((epoch + JST) / 3600) mod 24.
Definition minute (epoch : Z) : Z := ((epoch + JST) / 60) mod 60.

Definition summary_line (b : bot) (daily_total : gmap Z Q) (uid : Z)
  : string :=
  let total := Py.int (default 0%Q (daily_total !! uid)) in
  let name := match get_user b uid with
              | Some n => n
              | None => "<@" +:+ Py.str uid +:+ ">"
              end in
  "・**" +:+ name +:+ "**：" +:+ t_str total.

(** The lines of the summary.  [order] is the sequence in which the
    iteration [for uid in self.active_users] yields the members at this
    tick.  The order of a Python set depends on the layout of its hash
    table, that is on the history of the set, and is not a function of its
    content; the model takes it from the runtime, like the clock. *)
Definition msg_lines (b : bot) (order : list Z) (c : cog) : list string :=
  ["📊 **本日の勉強時間まとめ**"; EmptyString]
  ++ (summary_line b (daily_total c) <$> order)
  ++ [EmptyString; "🌙今日もお疲れさまでした！"].

(** [order] is an iteration of the active set: every member once. *)
Definition iterates (order : list Z) (c : cog) : Prop :=
  order ≡ₚ elements (active_users c).

Definition fires (epoch : Z) (c : cog) : bool :=
  bool_decide (hour epoch = 23) && bool_decide (minute epoch = 59)
  && negb (bool_decide (active_users c = ∅)).

(** One tick of the [tasks.loop(minutes=1)] task; [epoch] is the clock
    reading and [order] the iteration order of the active set at this
    tick. *)
Definition daily_summary (b : bot) (epoch : Z) (order : list Z) : M unit :=
  let* c := get in
  if fires epoch c then
    notify b (Py.join Py.nl (msg_lines b order c)) >>
    modify (with_daily_total (λ _, ∅)) >>
    modify (with_active_users (λ _, ∅)) >>
    _save_daily_totals
  else ret tt.

(** The state after the reset that follows the summary. *)
Definition after_reset (c : cog) : cog :=
  with_trace (λ t, t ++ [Log INFO "VcNotifier"
                           "daily_totals.json に合計滞在時間を保存しました。"])
    (with_files (fs_run (_save_daily_totals_ops ∅))
       (with_active_users (λ _, ∅) (with_daily_total (λ _, ∅) c))).

End Cog.

(** ** The specification's wording *)

(** The specification's conditions, in its own words: an enter is
    "previous location is not the target, new location is the target", a
    leave is "previous location is the target, new location is not the
    target". *)
Definition spec_enter (target : Z) (before after : voice_state) : Prop :=
  ch_id <$> vs_channel before ≠ Some target
  ∧ ch_id <$> vs_channel after = Some target.

Definition spec_leave (target : Z) (before after : voice_state) : Prop :=
  ch_id <$> vs_channel before = Some target
  ∧ ch_id <$> vs_channel after ≠ Some target.

(** The handler processes an event as an enter (as a leave) when, from every
    state of the cog, it does what the enter branch (the leave branch)
    does. *)
Definition handled_as_enter {FT : FloatText} (b : bot) (now : Q) (m : member)
    (before after : voice_state) : Prop :=
  ∃ ch, vs_channel after = Some ch
        ∧ ∀ c, on_voice_state_update b now m before after c
               = enter b now m ch c.

Definition handled_as_leave {FT : FloatText} (b : bot) (now : Q) (m : member)
    (before after : voice_state) : Prop :=
  ∃ ch, vs_channel before = Some ch
        ∧ ∀ c, on_voice_state_update b now m before after c
               = leave b now m ch c.

(** The specification's session duration: leave time minus start instant,
    clamped to be non-negative. *)
Definition spec_duration (now start : Q) : Q :=
  if Qlt_le_dec (now - start) 0 then 0%Q else (now - start)%Q.

(** The specification's requirement on a save: a reader of the destination
    sees the previous document or the complete new one, nothing else. *)
Definition atomic_save (p : string) (ops : list fs_op) (new : string)
    (fs : gmap string string) : Prop :=
  ∀ o, o ∈ observations p ops fs → o = fs !! p ∨ o = Some new.

(** ** A concrete float text *)

(** An instance of [FloatText] on which the documents can be computed.  A
    rational with denominator one, which stands for a float without
    fractional part, is written as Python writes it ([90.0]); any other
    rational is written as the fraction [n/d]. *)
Module FracText.

Fixpoint split_at (c : ascii) (s : string) : option (string * string) :=
  match s with
  | EmptyString => None
  | String a rest =>
      if Ascii.eqb a c then Some (EmptyString, rest)
      else (λ lr, (String a lr.1, lr.2)) <$> split_at c rest
  end.

Definition repr (q : Q) : string :=
  match Qden q with
  | xH => Py.str (Qnum q) +:+ ".0"
  | d => Py.str (Qnum q) +:+ "/" +:+ Py.str (Zpos d)
  end.

Definition of_json (tok : string) : option Q :=
  match split_at "." tok with
  | Some (a, b) =>
      if String.eqb b "0" then (λ n, n # 1) <$> Py.int_of_str a else None
  | None =>
      lr ← split_at "/" tok;
      n ← Py.int_of_str lr.1;
      d ← Py.int_of_str lr.2;
      match d with
      | Zpos p => Some (n # p)
      | _ => None
      end
  end.

Definition frac_text : FloatText :=
  {| float_repr := repr; float_of_json := of_json |}.

End FracText.

(** The laws of Python's float text that the round trip of a document
    relies on: reading the text of a float gives the float back, and the
    text is a non-empty run of plain characters (neither white space nor
    JSON punctuation). *)
Class FloatTextLaws (FT : FloatText) : Prop := {
  float_of_json_repr : ∀ q, float_of_json (float_repr q) = Some q;
  float_repr_nonempty : ∀ q, float_repr q ≠ EmptyString;
  float_repr_plain : ∀ q, sforall Json.is_plain (float_repr q) = true
}.

(** ** Sample inputs *)

Module Sample.

Definition study : channel := {| ch_id := 1; ch_name := "study" |}.
Definition lounge : channel := {| ch_id := 2; ch_name := "lounge" |}.
Definition alice : member :=
  {| m_id := 10; m_bot := false; display_name := "alice" |}.

Definition nowhere : voice_state := {| vs_channel := None |}.
Definition in_study : voice_state := {| vs_channel := Some study |}.
Definition in_lounge : voice_state := {| vs_channel := Some lounge |}.

(** A bot whose destination channel 7 accepts every message. *)
Definition good_bot : bot :=
  {| target_vc_id := 1; get_channel := λ _, Some 7;
     fetch_channel := λ _, inr 7; send := λ _ _ _, None;
     get_user := λ _, None |}.

(** A bot on a library without the [suppress_notifications] keyword
    ([TypeError]) and without the permission to send ([Forbidden]). *)
Definition old_forbidden_bot : bot :=
  {| target_vc_id := 1; get_channel := λ _, Some 7;
     fetch_channel := λ _, inr 7;
     send := λ _ _ suppress, if suppress then Some TypeError
                             else Some Forbidden;
     get_user := λ _, None |}.

Definition fresh : cog :=
  {| dest_channel_id := Some 7; join_times := ∅; daily_total := ∅;
     active_users := ∅; files := ∅; trace := [] |}.

(** Alice entered when the clock read 100. *)
Definition alice_inside : cog :=
  {| dest_channel_id := Some 7; join_times := {[10 := 100%Q]};
     daily_total := ∅; active_users := {[10]}; files := ∅; trace := [] |}.

(** Alice has 90 seconds on record, saved in the totals document. *)
Definition alice_90 : cog :=
  {| dest_channel_id := Some 7; join_times := ∅;
     daily_total := {[10 := 90%Q]}; active_users := {[10]};
     files := {[DAILY_TOTALS_PATH :=
                 totals_text (FT := FracText.frac_text) {[10 := 90%Q]}]};
     trace := [] |}.

(** 23:59:00 JST on 1970-01-01, that is 14:59:00 UTC. *)
Definition cutoff : Z := 14 * 3600 + 59 * 60.

End Sample.

(** ** Runs of the presence handler *)

(** One call of the handler by the gateway.  An exception of the handler is
    reported by the library and the next event is dispatched on the cog as
    the handler left it. *)
Record voice_event := {
  ev_now : Q;
  ev_member : member;
  ev_before : voice_state;
  ev_after : voice_state
}.

Definition dispatch {FT : FloatText} (b : bot) (c : cog) (e : voice_event)
  : cog :=
  (on_voice_state_update b (ev_now e) (ev_member e) (ev_before e)
     (ev_after e) c).2.

Definition replay {FT : FloatText} (b : bot) (es : list voice_event)
    (c : cog) : cog :=
  foldl (dispatch b) c es.

(** The two events of a complete session of [m] in [ch]: the enter when the
    clock reads [times.1], the leave when it reads [times.2]. *)
Definition session_events (m : member) (ch : channel) (times : Q * Q)
  : list voice_event :=
  [ {| ev_now := times.1; ev_member := m;
       ev_before := {| vs_channel := None |};
       ev_after := {| vs_channel := Some ch |} |};
    {| ev_now := times.2; ev_member := m;
       ev_before := {| vs_channel := Some ch |};
       ev_after := {| vs_channel := None |} |} ].

(** The clock does not go back along [es], starting from the reading
    [t0]. *)
Fixpoint clock_ordered (t0 : Q) (es : list voice_event) : Prop :=
  match es with
  | [] => True
  | e :: rest => (t0 <= ev_now e)%Q ∧ clock_ordered (ev_now e) rest
  end.

(** No start instant on record is after the clock reading [now]. *)
Definition starts_before (now : Q) (c : cog) : Prop :=
  ∀ k t, join_times c !! k = Some t → (t <= now)%Q.

(** The totals document on disk is the one of the totals in memory. *)
Definition synced {FT : FloatText} (c : cog) : Prop :=
  files c !! DAILY_TOTALS_PATH = Some (totals_text (daily_total c)).

(** [total_of c k] is [self.daily_total.get(k, 0)]. *)
Definition total_of (c : cog) (k : Z) : Q := default 0%Q (daily_total c !! k).

(** The channel object [send_to_channel] works with: the cached one, else
    the fetched one, else none. *)
Definition resolve (b : bot) (channel_id : Z) : option Z :=
  match get_channel b channel_id with
  | Some ch => Some ch
  | None =>
      match fetch_channel b channel_id with
      | inr ch => Some ch
      | inl _ => None
      end
  end.

(** A delivery that fails without an exception for the caller: no
    destination is configured, or the channel cannot be resolved, or the
    first send raises something else than [TypeError]. *)
Definition fails_quietly (b : bot) (msg : string) (c : cog) : Prop :=
  Py.truthy_opt (dest_channel_id c) = false
  ∨ resolve b (default 0 (dest_channel_id c)) = None
  ∨ ∃ ch e, resolve b (default 0 (dest_channel_id c)) = Some ch
            ∧ send b ch msg true = Some e ∧ e ≠ TypeError.

Definition is_sent (e : event) : bool :=
  match e with
  | Sent _ _ _ => true
  | Log _ _ _ => false
  end.

(** ** Unicode text *)

(** Where the program inspects the characters of a [str] ([strip],
    [isdigit], [int]), the [str] is modelled as the sequence of its code
    points.  The character classes are those of the Unicode database of
    the runtime; the tables below are the ones of Unicode 14.0, as shipped
    with CPython 3.11. *)
Module Unicode.

Definition byte (c : ascii) : Z := Z.of_nat (nat_of_ascii c).

(** A continuation byte of UTF-8. *)
Definition cont (b : Z) : bool := (0x80 <=? b) && (b <=? 0xbf).

(** The second byte of a three-byte sequence: no overlong form after
    [0xe0], no surrogate after [0xed]. *)
Definition second_of_three (b0 b1 : Z) : bool :=
  if b0 =? 0xe0 then (0xa0 <=? b1) && (b1 <=? 0xbf)
  else if b0 =? 0xed then (0x80 <=? b1) && (b1 <=? 0x9f)
  else cont b1.

(** The second byte of a four-byte sequence: no overlong form after
    [0xf0], nothing beyond U+10FFFF after [0xf4]. *)
Definition second_of_four (b0 b1 : Z) : bool :=
  if b0 =? 0xf0 then (0x90 <=? b1) && (b1 <=? 0xbf)
  else if b0 =? 0xf4 then (0x80 <=? b1) && (b1 <=? 0x8f)
  else cont b1.

(** The [utf-8] codec with strict error handling, as [open(...,
    encoding="utf-8")] uses it: the code points of the text, [None] for
    [UnicodeDecodeError]. *)
Fixpoint decode (s : string) : option (list Z) :=
  match s with
  | EmptyString => Some []
  | String c0 r0 =>
      let b0 := byte c0 in
      if b0 <? 0x80 then cons b0 <$> decode r0
      else
        match r0 with
        | EmptyString => None
        | String c1 r1 =>
            let b1 := byte c1 in
            if (0xc2 <=? b0) && (b0 <=? 0xdf) then
              if cont b1 then
                cons ((b0 - 0xc0) * 64 + (b1 - 0x80)) <$> decode r1
              else None
            else
              match r1 with
              | EmptyString => None
              | String c2 r2 =>
                  let b2 := byte c2 in
                  if (0xe0 <=? b0) && (b0 <=? 0xef) then
                    if second_of_three b0 b1 && cont b2 then
                      cons ((b0 - 0xe0) * 4096 + (b1 - 0x80) * 64
                            + (b2 - 0x80)) <$> decode r2
                    else None
                  else
                    match r2 with
                    | EmptyString => None
                    | String c3 r3 =>
                        let b3 := byte c3 in
                        if (0xf0 <=? b0) && (b0 <=? 0xf4)
                           && second_of_four b0 b1 && cont b2 && cont b3
                        then
                          cons ((b0 - 0xf0) * 262144 + (b1 - 0x80) * 4096
                                + (b2 - 0x80) * 64 + (b3 - 0x80))
                            <$> decode r3
                        else None
                    end
              end
        end
  end.

(** The [str] of a literal of the source. *)
Definition lit (s : string) : list Z := default [] (decode s).

Definition in_ranges (ranges : list (Z * Z)) (c : Z) : bool :=
  existsb (λ r, (r.1 <=? c) && (c <=? r.2)) ranges.

(** White space ([Py_UNICODE_ISSPACE]): what [str.strip()] removes. *)
Definition space_ranges : list (Z * Z) :=
  [(0x9, 0xd); (0x1c, 0x20); (0x85, 0x85); (0xa0, 0xa0);
   (0x1680, 0x1680); (0x2000, 0x200a); (0x2028, 0x2029); (0x202f, 0x202f);
   (0x205f, 0x205f); (0x3000, 0x3000)].

Definition isspace (c : Z) : bool := in_ranges space_ranges c.

(** The decimal digits come in runs of ten, from the zero of a script to
    its nine; these are the zeros. *)
Definition decimal_zeros : list Z :=
  [0x30; 0x660; 0x6f0; 0x7c0; 0x966; 0x9e6; 0xa66; 0xae6;
   0xb66; 0xbe6; 0xc66; 0xce6; 0xd66; 0xde6; 0xe50; 0xed0;
   0xf20; 0x1040; 0x1090; 0x17e0; 0x1810; 0x1946; 0x19d0; 0x1a80;
   0x1a90; 0x1b50; 0x1bb0; 0x1c40; 0x1c50; 0xa620; 0xa8d0; 0xa900;
   0xa9d0; 0xa9f0; 0xaa50; 0xabf0; 0xff10; 0x104a0; 0x10d30; 0x11066;
   0x110f0; 0x11136; 0x111d0; 0x112f0; 0x11450; 0x114d0; 0x11650; 0x116c0;
   0x11730; 0x118e0; 0x11950; 0x11c50; 0x11d50; 0x11da0; 0x16a60; 0x16ac0;
   0x16b50; 0x1d7ce; 0x1d7d8; 0x1d7e2; 0x1d7ec; 0x1d7f6; 0x1e140; 0x1e2f0;
   0x1e950; 0x1fbf0].

(** The value of a decimal digit ([Py_UNICODE_TODECIMAL]); [None] for any
    other code point. *)
Definition todecimal (c : Z) : option Z :=
  (λ zero, c - zero)
    <$> find (λ zero, (zero <=? c) && (c <=? zero + 9)) decimal_zeros.

(** Digits that are not decimal digits: superscripts, subscripts, circled
    digits and the like. *)
Definition other_digit_ranges : list (Z * Z) :=
  [(0xb2, 0xb3); (0xb9, 0xb9); (0x1369, 0x1371); (0x19da, 0x19da);
   (0x2070, 0x2070); (0x2074, 0x2079); (0x2080, 0x2089); (0x2460, 0x2468);
   (0x2474, 0x247c); (0x2488, 0x2490); (0x24ea, 0x24ea); (0x24f5, 0x24fd);
   (0x24ff, 0x24ff); (0x2776, 0x277e); (0x2780, 0x2788); (0x278a, 0x2792);
   (0x10a40, 0x10a43); (0x10e60, 0x10e68); (0x11052, 0x1105a);
   (0x1f100, 0x1f10a)].

(** A digit ([Py_UNICODE_ISDIGIT]): what [str.isdigit()] tests. *)
Definition isdigit (c : Z) : bool :=
  bool_decide (is_Some (todecimal c)) || in_ranges other_digit_ranges c.

(** The intervals of the digits: the runs of the decimal digits and the
    ranges of the other digits. *)
Definition digit_intervals : list (Z * Z) :=
  ((λ zero, (zero, zero + 9)) <$> decimal_zeros) ++ other_digit_ranges.

End Unicode.

(** ** Configuration from the environment *)

Module Cfg.

Fixpoint lstrip_by (space : Z → bool) (s : list Z) : list Z :=
  match s with
  | [] => []
  | c :: rest => if space c then lstrip_by space rest else s
  end.

Fixpoint rstrip_by (space : Z → bool) (s : list Z) : list Z :=
  match s with
  | [] => []
  | c :: rest =>
      match rstrip_by space rest with
      | [] => if space c then [] else [c]
      | kept => c :: kept
      end
  end.

Definition strip_by (space : Z → bool) (s : list Z) : list Z :=
  rstrip_by space (lstrip_by space s).

(** [s.strip()]. *)
Definition strip (s : list Z) : list Z := strip_by Unicode.isspace s.

(** [s.isdigit()]: at least one character, all of them digits. *)
Definition isdigit (s : list Z) : bool :=
  match s with
  | [] => false
  | _ => forallb Unicode.isdigit s
  end.

(** [int(s)] for a [str] goes through an ASCII copy of the text: a code
    point below 127 is kept, any other white space becomes a space, any
    other decimal digit becomes the ASCII digit of its value, and any
    other code point makes the text invalid. *)
Definition to_ascii (c : Z) : option Z :=
  if c <? 127 then Some c
  else if Unicode.isspace c then Some 32
  else (λ d, 48 + d) <$> Unicode.todecimal c.

(** White space of the C locale, which the integer parser skips at both
    ends of the ASCII copy. *)
Definition c_isspace (c : Z) : bool :=
  ((9 <=? c) && (c <=? 13)) || (c =? 32).

Definition sign_and_body (s : list Z) : bool * list Z :=
  match s with
  | c :: rest =>
      if c =? 45 then (true, rest)
      else if c =? 43 then (false, rest)
      else (false, s)
  | [] => (false, [])
  end.

(** The values of the digits of a decimal literal, without the underscores
    that may stand between two digits; [None] when the text is empty, an
    underscore is misplaced or another character occurs. *)
Fixpoint digits_of (after_digit : bool) (s : list Z) : option (list Z) :=
  match s with
  | [] => if after_digit then Some [] else None
  | c :: rest =>
      if (48 <=? c) && (c <=? 57) then (c - 48 ::.) <$> digits_of true rest
      else if c =? 95 then
        if after_digit then digits_of false rest else None
      else None
  end.

(** The number that a sequence of digit values spells. *)
Definition value (digits : list Z) : Z :=
  foldl (λ acc d, 10 * acc + d) 0 digits.

(** The default of [sys.get_int_max_str_digits()]. *)
Definition int_max_str_digits : nat := 4300.

(** [int(s)] for a [str]: surrounding white space, an optional sign,
    decimal digits with single underscores between them, at most
    [int_max_str_digits] digits; [None] stands for [ValueError]. *)
Definition int (s : list Z) : option Z :=
  ascii ← mapM to_ascii s;
  let '(negative, body) := sign_and_body (strip_by c_isspace ascii) in
  digits ← digits_of false body;
  if (int_max_str_digits <? length digits)%nat then None
  else Some (if negative : bool then - value digits else value digits).

Inductive error :=
  | RuntimeError (message : string)
  | ValueError.

Record t := {
  token : list Z;
  target_vc_id : Z;
  guild_id : option Z;
  log_level : list Z;
  port : Z
}.

(** [Config.load()]; [env] is the process environment as [os.getenv]
    reads it. *)
Definition load (env : gmap string (list Z)) : error + t :=
  let token := strip (default [] (env !! "DISCORD_TOKEN")) in
  match token with
  | [] => inl (RuntimeError "DISCORD_TOKEN が未設定です。")
  | _ =>
      let vc := env !! "TARGET_VOICE_CHANNEL_ID" in
      if negb (isdigit (default [] vc)) then
        inl (RuntimeError "TARGET_VOICE_CHANNEL_ID が未設定または不正です。")
      else
        match int (default [] vc) with
        | None => inl ValueError
        | Some target_vc_id =>
            let gid := env !! "GUILD_ID" in
            let guild :=
              if isdigit (default [] gid) then
                match int (default [] gid) with
                | Some g => inr (Some g)
                | None => inl ValueError
                end
              else inr None in
            match guild with
            | inl e => inl e
            | inr guild_id =>
                let log_level :=
                  default (Unicode.lit "INFO") (env !! "LOG_LEVEL") in
                match int (default (Unicode.lit "8000") (env !! "PORT")) with
                | None => inl ValueError
                | Some port =>
                    inr {| token := token; target_vc_id := target_vc_id;
                           guild_id := guild_id; log_level := log_level;
                           port := port |}
                end
            end
        end
  end.

End Cfg.

(** ** Reading the config document *)

Module JsonX.
Import Json.

(** The scanner of [Json], extended by values that are strings (without
    escape sequences; a control character inside a string is an error, as
    in [json]).  A string value is kept with its quotes, a scalar as its
    token, so the two cannot be confused: a scalar token holds no quote.
    The scanner works on the bytes of the file; all characters of the
    grammar are ASCII, and the bytes of a key or of a string value are
    decoded where the value is built.  Escape sequences and values that
    are arrays or objects are outside the modelled fragment: the model
    fails on such a document where [json.load] may read it. *)
Inductive xstate :=
  | XBase (st : pstate)
  | XStr (acc : list (string * string)) (key : string) (s : string).

Definition is_control (c : ascii) : bool := (nat_of_ascii c <? 32)%nat.

(** Characters that may stand unescaped inside a string value. *)
Definition str_char (c : ascii) : bool :=
  negb (Ascii.eqb c dquote || Ascii.eqb c backslash || is_control c).

Definition xstep (st : xstate) (c : ascii) : xstate :=
  match st with
  | XBase (PValue0 acc key) =>
      if Ascii.eqb c dquote then XStr acc key EmptyString
      else XBase (pstep (PValue0 acc key) c)
  | XBase st => XBase (pstep st c)
  | XStr acc key s =>
      if Ascii.eqb c dquote then XBase (PNext (acc ++ [(key, quoted s)]))
      else if Ascii.eqb c backslash then XBase PFail
      else if is_control c then XBase PFail
      else XStr acc key (snoc s c)
  end.

Fixpoint xrun (st : xstate) (s : string) : xstate :=
  match s with
  | EmptyString => st
  | String c rest => xrun (xstep st c) rest
  end.

Definition loads_flat (text : string) : option (list (string * string)) :=
  match xrun (XBase PStart) text with
  | XBase (PDone acc) => Some acc
  | _ => None
  end.

(** The grammar of a JSON number: an optional minus sign; a zero, or a
    digit other than zero followed by digits; optionally a point and at
    least one digit; optionally [e] or [E], an optional sign and at least
    one digit. *)
Inductive nstate :=
  | NStart | NMinus | NZero | NInt | NDot | NFrac | NExp | NExpSign
  | NExpDigits | NBad.

Definition is_digit (c : ascii) : bool :=
  match c with
  | "0" | "1" | "2" | "3" | "4" | "5" | "6" | "7" | "8" | "9" => true
  | _ => false
  end%char.

Definition nstep (st : nstate) (c : ascii) : nstate :=
  let digit := is_digit c in
  let zero := Ascii.eqb c "0" in
  let e := (Ascii.eqb c "e" || Ascii.eqb c "E")%bool in
  match st with
  | NStart =>
      if Ascii.eqb c "-" then NMinus
      else if zero then NZero else if digit then NInt else NBad
  | NMinus => if zero then NZero else if digit then NInt else NBad
  | NZero => if Ascii.eqb c "." then NDot else if e then NExp else NBad
  | NInt =>
      if digit then NInt
      else if Ascii.eqb c "." then NDot else if e then NExp else NBad
  | NDot => if digit then NFrac else NBad
  | NFrac => if digit then NFrac else if e then NExp else NBad
  | NExp =>
      if (Ascii.eqb c "+" || Ascii.eqb c "-")%bool then NExpSign
      else if digit then NExpDigits else NBad
  | NExpSign => if digit then NExpDigits else NBad
  | NExpDigits => if digit then NExpDigits else NBad
  | NBad => NBad
  end.

Fixpoint nrun (st : nstate) (s : string) : nstate :=
  match s with
  | EmptyString => st
  | String c rest => nrun (nstep st c) rest
  end.

(** What [json.load] makes of a value; a string is a [str], the sequence
    of its code points. *)
Inductive value :=
  | VNull
  | VBool (b : bool)
  | VInt (n : Z)
  | VFloat
  | VStr (s : list Z).

Fixpoint drop_last (s : string) : string :=
  match s with
  | EmptyString => EmptyString
  | String c EmptyString => EmptyString
  | String c rest => String c (drop_last rest)
  end.

Definition value_of_token (tok : string) : option value :=
  match tok with
  | String c rest =>
      if Ascii.eqb c dquote then VStr <$> Unicode.decode (drop_last rest)
      else if String.eqb tok "null" then Some VNull
      else if String.eqb tok "true" then Some (VBool true)
      else if String.eqb tok "false" then Some (VBool false)
      else if (String.eqb tok "NaN" || String.eqb tok "Infinity"
               || String.eqb tok "-Infinity")%bool then Some VFloat
      else
        match nrun NStart tok with
        | NZero | NInt => VInt <$> Py.int_of_str tok
        | NFrac | NExpDigits => Some VFloat
        | _ => None
        end
  | EmptyString => None
  end.

(** A key as the scanner took it can stand in a document: it holds no
    control character and its bytes are valid UTF-8.  (Two keys are the
    same [str] exactly when their bytes are the same.) *)
Definition key_ok (key : string) : bool :=
  sforall (λ c, negb (is_control c)) key
  && bool_decide (is_Some (Unicode.decode key)).

(** [json.load(f)] for a flat object in a file opened with
    [encoding="utf-8"]; [None] stands for the exception of a text that is
    no such document. *)
Definition load_flat (text : string) : option (list (string * value)) :=
  items ← loads_flat text;
  mapM (λ kv : string * string,
          if key_ok kv.1 then (λ v, (kv.1, v)) <$> value_of_token kv.2
          else None)
       items.

(** [obj.get(key)]: the value of the last member with that key. *)
Definition get (key : string) (obj : list (string * value)) : option value :=
  foldl (λ found kv, if decide (kv.1 = key) then Some kv.2 else found)
        None obj.

End JsonX.

(** [load_persisted_dest_channel_id] reads the files only; it returns the
    destination and the log record of a failed load.  [isinstance(val, int)]
    holds for a JSON integer and for [true] and [false] ([bool] is a
    subclass of [int]). *)
Definition load_persisted_dest_channel_id (fs : gmap string string)
  : option Z * list event :=
  let failed := [Log WARNING "Persist" "config.json 読み込み失敗: %s"] in
  match fs !! CONFIG_PATH with
  | None => (None, [])
  | Some text =>
      match JsonX.load_flat text with
      | None => (None, failed)
      | Some obj =>
          match JsonX.get "dest_channel_id" obj with
          | Some (JsonX.VInt n) => (Some n, [])
          | Some (JsonX.VBool b) => (Some (if b then 1 else 0), [])
          | Some (JsonX.VStr s) =>
              if Cfg.isdigit s then
                match Cfg.int s with
                | Some n => (Some n, [])
                | None => (None, failed)
                end
              else (None, [])
          | _ => (None, [])
          end
      end
  end.

(** ** Start of the cog and admin commands *)

Definition with_dest_channel_id (f : option Z → option Z) (c : cog) : cog :=
  {| dest_channel_id := f (dest_channel_id c); join_times := join_times c;
     daily_total := daily_total c; active_users := active_users c;
     files := files c; trace := trace c |}.

(** [VcNotifier.__init__] in a process that finds the files [fs]; the trace
    of the new process starts with the log records of the two loads. *)
Definition __init__ {FT : FloatText} (fs : gmap string string) : cog :=
  let dest := load_persisted_dest_channel_id fs in
  let totals := _load_daily_totals fs in
  {| dest_channel_id := dest.1; join_times := ∅; daily_total := totals.1;
     active_users := ∅; files := fs; trace := dest.2 ++ totals.2 |}.

(** The interaction of a slash command: the channel it was used in and the
    outcome of the reply to the invoker ([None] when it returns).  The reply
    is seen by the invoker only and is not part of the cog's trace. *)
Record interaction := {
  channel_id : option Z;
  send_message : string → bool → option exn
}.

Definition respond (i : interaction) (text : string) : M unit :=
  match send_message i text true with
  | None => ret tt
  | Some e => raise e
  end.

(** [AdminGroup.setchannel]. *)
Definition setchannel (i : interaction) : M unit :=
  modify (with_dest_channel_id (λ _, channel_id i)) >>
  save_persisted_dest_channel_id (channel_id i) >>
  respond i "✅ 通知先を設定しました（保存済み）".

(** [AdminGroup.test]. *)
Definition test (b : bot) (i : interaction) : M unit :=
  respond i "送信テスト中…" >>
  notify b "🔔 テスト通知：このチャンネルに届きます。".

(** Both documents on disk are the ones of the cog's fields. *)
Definition persisted {FT : FloatText} (c : cog) : Prop :=
  synced c
  ∧ files c !! CONFIG_PATH = Some (config_text (dest_channel_id c)).

(** ** More sample inputs *)

Module More.

(** A slash command used in channel 7, with a reply that goes through. *)
Definition here : interaction :=
  {| channel_id := Some 7; send_message := λ _ _, None |}.

(** Alice has 90 seconds on record and is active, and no destination is
    configured. *)
Definition no_destination : cog :=
  {| dest_channel_id := None; join_times := ∅;
     daily_total := {[10 := 90%Q]}; active_users := {[10]};
     files := {[DAILY_TOTALS_PATH :=
                 totals_text (FT := FracText.frac_text) {[10 := 90%Q]}]};
     trace := [] |}.

(** Alice is inside since the clock read 100, and is active; both documents
    are on disk. *)
Definition alice_across : cog :=
  {| dest_channel_id := Some 7; join_times := {[10 := 100%Q]};
     daily_total := ∅; active_users := {[10]};
     files := {[DAILY_TOTALS_PATH := "{}";
                CONFIG_PATH := config_text (Some 7)]};
     trace := [] |}.

(** As [Sample.alice_90], with a total on record for a member 11 who is not
    active. *)
Definition with_inactive_total : cog :=
  {| dest_channel_id := Some 7; join_times := ∅;
     daily_total := {[10 := 90%Q; 11 := 45%Q]}; active_users := {[10]};
     files := ∅; trace := [] |}.

(** An environment with a token in white space (the second space is the
    ideographic space U+3000), a target in full-width digits and a guild
    that is a name. *)
Definition env : gmap string (list Z) :=
  {["DISCORD_TOKEN" := Unicode.lit " secret　";
    "TARGET_VOICE_CHANNEL_ID" := Unicode.lit "１２";
    "GUILD_ID" := Unicode.lit "none"]}.

End More.

(** ** More on characters *)

(** An ASCII letter. *)
Definition is_letter (c : ascii) : bool :=
  let n := nat_of_ascii c in
  ((65 <=? n)%nat && (n <=? 90)%nat) || ((97 <=? n)%nat && (n <=? 122)%nat).

(** Some character of [s] satisfies [P]. *)
Fixpoint sexists (P : ascii → bool) (s : string) : bool :=
  match s with
  | EmptyString => false
  | String c rest => P c || sexists P rest
  end.

(** * Properties *)

(** ** Duration formatting *)

Lemma int_lt_iff (x : Q) (k : Z) :
  1 <= k → (x < inject_Z k)%Q ↔ Py.int x < k.
Proof.
  intros Hk. destruct x as [n d]. unfold Qlt, Py.int. simpl.
  destruct (Z_lt_le_dec n 0) as [Hn | Hn].
  - assert (Z.quot n (Z.pos d) <= 0) by (apply Z.quot_le_upper_bound; lia).
    split; intros _; nia.
  - rewrite Z.quot_div_nonneg by lia. split; intros Hlt.
    + apply Z.div_lt_upper_bound; lia.
    + pose proof (Z.mul_div_le n (Z.pos d)).
      pose proof (Z.mod_pos_bound n (Z.pos d)).
      pose proof (Z.div_mod n (Z.pos d)). nia.
Qed.

Lemma int_nonneg (x : Q) : (0 <= x)%Q → 0 <= Py.int x.
Proof.
  destruct x as [n d]. unfold Qle, Py.int. simpl. intros Hn.
  apply Z.quot_pos; lia.
Qed.

Lemma fmt_t_str (sec : Q) : fmt sec = t_str (Py.int sec).
Proof.
  unfold fmt, t_str.
  destruct (Qlt_le_dec sec 60) as [H60 | H60];
    destruct (decide (Py.int sec < 60)) as [I60 | I60].
  - reflexivity.
  - apply (int_lt_iff sec 60) in H60; lia.
  - apply (int_lt_iff sec 60) in I60; [|lia].
    exfalso. apply (Qlt_not_le _ _ I60), H60.
  - destruct (Qlt_le_dec sec 3600) as [H3600 | H3600];
      destruct (decide (Py.int sec < 3600)) as [I3600 | I3600].
    + reflexivity.
    + apply (int_lt_iff sec 3600) in H3600; lia.
    + apply (int_lt_iff sec 3600) in I3600; [|lia].
      exfalso. apply (Qlt_not_le _ _ I3600), H3600.
    + reflexivity.
Qed.

(** C8.  For a non-negative duration [sec] with whole part [n]: below 60
    the text is the seconds alone; from 60 up to 3600 it is minutes and
    seconds; from 3600 on it is hours, minutes and seconds, where the lower
    units are always written (also when zero) and lie below 60.  The three
    sample values render as the specification says, and the rollover summary
    formats the whole part of a total by the very same rule. *)
Theorem fmt_rule (sec : Q) (Hsec : (0 <= sec)%Q) :
  let n := Py.int sec in
  ((sec < 60)%Q → 0 <= n < 60 ∧ fmt sec = Py.str n +:+ "秒")
  ∧ ((60 <= sec)%Q → (sec < 3600)%Q →
     ∃ m s, n = 60 * m + s ∧ 1 <= m < 60 ∧ 0 <= s < 60
            ∧ fmt sec = Py.str m +:+ "分" +:+ Py.str s +:+ "秒")
  ∧ ((3600 <= sec)%Q →
     ∃ h m s, n = 3600 * h + 60 * m + s ∧ 1 <= h ∧ 0 <= m < 60
              ∧ 0 <= s < 60
              ∧ fmt sec = Py.str h +:+ "時間" +:+ Py.str m +:+ "分"
                          +:+ Py.str s +:+ "秒")
  ∧ fmt 45 = "45秒" ∧ fmt 125 = "2分5秒" ∧ fmt 3725 = "1時間2分5秒"
  ∧ fmt 3600 = "1時間0分0秒"
  ∧ t_str n = fmt sec.
Proof.
  intros n. pose proof (int_nonneg sec Hsec) as Hn. fold n in Hn.
  pose proof (int_lt_iff sec 60 ltac:(lia)) as L60.
  pose proof (int_lt_iff sec 3600 ltac:(lia)) as L3600. fold n in L60, L3600.
  repeat split; try reflexivity; try (symmetry; apply fmt_t_str).
  - lia.
  - apply L60; assumption.
  - unfold fmt. destruct (Qlt_le_dec sec 60) as [_ | Hge]; [reflexivity|].
    exfalso. apply (Qlt_not_le _ _ H), Hge.
  - intros Hge Hlt. exists (n / 60), (n mod 60).
    assert (¬ n < 60) as Hn60.
    { intros Hc. apply L60 in Hc. apply (Qlt_not_le _ _ Hc), Hge. }
    apply L3600 in Hlt.
    pose proof (Z.div_mod n 60 ltac:(lia)).
    pose proof (Z.mod_pos_bound n 60 ltac:(lia)).
    repeat split; try lia.
    rewrite fmt_t_str. fold n. unfold t_str.
    destruct (decide (n < 60)); [lia|].
    destruct (decide (n < 3600)); [reflexivity | lia].
  - intros Hge. exists (n / 3600), (n mod 3600 / 60), (n mod 3600 mod 60).
    assert (¬ n < 3600) as Hn3600.
    { intros Hc. apply L3600 in Hc. apply (Qlt_not_le _ _ Hc), Hge. }
    pose proof (Z.div_mod n 3600 ltac:(lia)).
    pose proof (Z.mod_pos_bound n 3600 ltac:(lia)).
    pose proof (Z.div_mod (n mod 3600) 60 ltac:(lia)).
    pose proof (Z.mod_pos_bound (n mod 3600) 60 ltac:(lia)).
    repeat split; try lia.
    rewrite fmt_t_str. fold n. unfold t_str.
    destruct (decide (n < 60)); [lia|].
    destruct (decide (n < 3600)); [lia | reflexivity].
Qed.

Lemma fmt_rule_witness :
  (0 <= 125)%Q ∧ fmt 125 = "2分5秒" ∧ t_str (Py.int 125) = fmt 125.
Proof.
  split; [discriminate|].
  pose proof (fmt_rule 125 ltac:(discriminate)) as H.
  split; [apply H | apply H].
Defined.

(** ** Frame lemmas of the coroutine monad *)

Lemma cog_eq (c c' : cog) :
  frame c c' → trace c' = trace c → c' = c.
Proof.
  destruct c, c'. unfold frame. simpl. intros (-> & -> & -> & -> & ->) ->.
  reflexivity.
Qed.

Section Machine.
Context {FT : FloatText}.

Lemma send_to_channel_frame b id msg c :
  frame c (send_to_channel b id msg c).2.
Proof.
  unfold send_to_channel. run_monad.
  repeat case_match; simpl; repeat split.
Qed.

Lemma notify_frame b msg c : frame c (notify b msg c).2.
Proof.
  unfold notify. run_monad. case_match.
  - repeat split.
  - apply send_to_channel_frame.
Qed.

Lemma save_daily_totals_eq c :
  _save_daily_totals c
  = (Return tt,
     with_trace (λ t, t ++ [Log INFO "VcNotifier"
                              "daily_totals.json に合計滞在時間を保存しました。"])
       (with_files (fs_run (_save_daily_totals_ops (daily_total c))) c)).
Proof. reflexivity. Qed.

Lemma saved_totals_lookup (d : gmap Z Q) fs :
  fs_run (_save_daily_totals_ops d) fs !! DAILY_TOTALS_PATH
  = Some (totals_text d).
Proof.
  unfold fs_run, _save_daily_totals_ops. simpl.
  rewrite lookup_alter_eq, lookup_insert_eq. reflexivity.
Qed.

(** A clock reading after the epoch is a true value. *)
Lemma truthy_pos (t : Q) : (0 < t)%Q → Py.truthy t = true.
Proof.
  intros Hpos. unfold Py.truthy. apply negb_true_iff.
  destruct (Qeq_bool t 0) eqn:Heq; [|reflexivity].
  apply Qeq_bool_iff in Heq. rewrite Heq in Hpos.
  exfalso. apply (Qlt_irrefl 0 Hpos).
Qed.

(** The enter branch: the start instant and the membership are recorded,
    then the message goes to the notifier. *)
Lemma enter_eq b now m ch c :
  enter b now m ch c
  = notify b (entered_message m ch)
      (with_active_users (λ s, {[m_id m]} ∪ s)
         (with_join_times (insert (m_id m) now) c)).
Proof. reflexivity. Qed.

Lemma enter_state b now m ch c :
  let c' := (enter b now m ch c).2 in
  join_times c' = <[m_id m := now]> (join_times c)
  ∧ active_users c' = {[m_id m]} ∪ active_users c
  ∧ daily_total c' = daily_total c
  ∧ files c' = files c
  ∧ dest_channel_id c' = dest_channel_id c.
Proof.
  intros c'. subst c'. rewrite enter_eq.
  destruct (notify_frame b (entered_message m ch)
              (with_active_users (λ s, {[m_id m]} ∪ s)
                 (with_join_times (insert (m_id m) now) c)))
    as (-> & -> & -> & -> & ->).
  repeat split.
Qed.

(** The leave branch with no session on record does nothing. *)
Lemma leave_no_session b now m ch c :
  join_times c !! m_id m = None → leave b now m ch c = (Return tt, c).
Proof.
  intros Hnone. unfold leave. run_monad. rewrite Hnone.
  f_equal. apply cog_eq; [|reflexivity].
  repeat split. simpl. apply delete_id, Hnone.
Qed.

(** The leave branch with a session on record. *)
Lemma leave_open_eq b now m ch c t :
  join_times c !! m_id m = Some t → Py.truthy t = true →
  let stay := (now - t)%Q in
  let total := (default 0%Q (daily_total c !! m_id m) + stay)%Q in
  let d' := <[m_id m := total]> (daily_total c) in
  leave b now m ch c
  = notify b (left_message m ch stay total)
      (with_trace (λ t, t ++ [Log INFO "VcNotifier"
                               "daily_totals.json に合計滞在時間を保存しました。"])
         (with_files (fs_run (_save_daily_totals_ops d'))
            (with_daily_total (λ _, d')
               (with_join_times (delete (m_id m)) c)))).
Proof.
  intros Ht Htruthy stay total d'. unfold leave. run_monad.
  rewrite Ht, Htruthy. unfold _save_daily_totals. run_monad.
  rewrite lookup_insert_eq. reflexivity.
Qed.

Lemma leave_join_times b now m ch c :
  join_times (leave b now m ch c).2 = delete (m_id m) (join_times c).
Proof.
  destruct (join_times c !! m_id m) as [t|] eqn:Ht.
  - destruct (Py.truthy t) eqn:Htr.
    + rewrite (leave_open_eq b now m ch c t Ht Htr).
      match goal with |- context [notify ?b ?msg ?c0] =>
        destruct (notify_frame b msg c0) as (_ & -> & _) end.
      reflexivity.
    + unfold leave. run_monad. rewrite Ht, Htr. reflexivity.
  - rewrite leave_no_session by assumption. symmetry. apply delete_id, Ht.
Qed.

(** The handler's dispatch, case by case. *)
Lemma handler_bot b now m before after c :
  m_bot m = true → on_voice_state_update b now m before after c = (Return tt, c).
Proof. intros Hb. unfold on_voice_state_update. rewrite Hb. reflexivity. Qed.

Lemma handler_enter b now m before after ch c :
  m_bot m = false → vs_channel before = None → vs_channel after = Some ch →
  ch_id ch = target_vc_id b →
  on_voice_state_update b now m before after c = enter b now m ch c.
Proof.
  intros Hb Hbefore Hafter Hid. unfold on_voice_state_update.
  rewrite Hb, Hbefore, Hafter. simpl. rewrite Hid.
  repeat case_bool_decide; simpl; try reflexivity; congruence.
Qed.

Lemma handler_leave b now m before after ch c :
  m_bot m = false → vs_channel before = Some ch → vs_channel after = None →
  ch_id ch = target_vc_id b →
  on_voice_state_update b now m before after c = leave b now m ch c.
Proof.
  intros Hb Hbefore Hafter Hid. unfold on_voice_state_update.
  rewrite Hb, Hbefore, Hafter. simpl. rewrite Hid.
  repeat case_bool_decide; simpl; try reflexivity; congruence.
Qed.

(** Every other event is ignored. *)
Lemma handler_ignored b now m before after c :
  ¬ (vs_channel before = None
     ∧ ch_id <$> vs_channel after = Some (target_vc_id b)) →
  ¬ (ch_id <$> vs_channel before = Some (target_vc_id b)
     ∧ vs_channel after = None) →
  on_voice_state_update b now m before after c = (Return tt, c).
Proof.
  intros Hne Hnl. unfold on_voice_state_update.
  destruct (m_bot m); [reflexivity|].
  destruct (vs_channel before) as [bch|], (vs_channel after) as [ach|];
    simpl in *; repeat case_bool_decide; simpl; try reflexivity;
    solve [ exfalso; apply Hnl; split; congruence
          | exfalso; apply Hne; split; congruence ].
Qed.

End Machine.

(** ** Enter and leave *)

Section Dispatch.
Context {FT : FloatText}.

Lemma handled_as_enter_iff b now m before after :
  m_bot m = false →
  handled_as_enter b now m before after
  ↔ vs_channel before = None
    ∧ ch_id <$> vs_channel after = Some (target_vc_id b).
Proof.
  intros Hb. split.
  - intros (ch & Hafter & Hall).
    destruct (vs_channel before) as [bch|] eqn:Hbefore.
    + exfalso. specialize (Hall (blank ∅)).
      rewrite handler_ignored in Hall.
      * pose proof (enter_state b now m ch (blank ∅)) as (Hjt & _).
        rewrite <- Hall in Hjt. simpl in Hjt.
        apply (f_equal (λ jt, jt !! m_id m)) in Hjt.
        rewrite lookup_empty, lookup_insert_eq in Hjt. discriminate.
      * rewrite Hbefore. intros [? _]. discriminate.
      * rewrite Hafter. intros [_ ?]. discriminate.
    + split; [reflexivity|]. rewrite Hafter. simpl.
      destruct (decide (ch_id ch = target_vc_id b)) as [-> | Hne];
        [reflexivity|].
      exfalso. specialize (Hall (blank ∅)).
      rewrite handler_ignored in Hall.
      * pose proof (enter_state b now m ch (blank ∅)) as (Hjt & _).
        rewrite <- Hall in Hjt. simpl in Hjt.
        apply (f_equal (λ jt, jt !! m_id m)) in Hjt.
        rewrite lookup_empty, lookup_insert_eq in Hjt. discriminate.
      * rewrite Hafter. simpl. intros [_ ?]. congruence.
      * rewrite Hafter. intros [_ ?]. discriminate.
  - intros [Hbefore Hafter].
    destruct (vs_channel after) as [ch|] eqn:Ha; [|discriminate].
    exists ch. split; [assumption|]. intros c.
    apply handler_enter; try assumption. simpl in Hafter. congruence.
Qed.

Lemma handled_as_leave_iff b now m before after :
  m_bot m = false →
  handled_as_leave b now m before after
  ↔ ch_id <$> vs_channel before = Some (target_vc_id b)
    ∧ vs_channel after = None.
Proof.
  intros Hb. split.
  - intros (ch & Hbefore & Hall).
    assert (∀ P : Prop,
              on_voice_state_update b now m before after
                (blank {[m_id m := 1%Q]})
              = (Return tt, blank {[m_id m := 1%Q]}) → P) as Habsurd.
    { intros P Hign. rewrite Hall in Hign.
      pose proof (leave_join_times b now m ch (blank {[m_id m := 1%Q]}))
        as Hjt.
      rewrite Hign in Hjt. simpl in Hjt.
      apply (f_equal (λ jt, jt !! m_id m)) in Hjt.
      rewrite lookup_delete_eq, lookup_singleton_eq in Hjt. discriminate. }
    destruct (vs_channel after) as [ach|] eqn:Hafter.
    + apply Habsurd. apply handler_ignored.
      * rewrite Hbefore. intros [? _]. discriminate.
      * rewrite Hafter. intros [_ ?]. discriminate.
    + split; [|reflexivity]. rewrite Hbefore. simpl.
      destruct (decide (ch_id ch = target_vc_id b)) as [-> | Hne];
        [reflexivity|].
      apply Habsurd. apply handler_ignored.
      * rewrite Hbefore. intros [? _]. discriminate.
      * rewrite Hbefore. simpl. intros [? _]. congruence.
  - intros [Hbefore Hafter].
    destruct (vs_channel before) as [ch|] eqn:Hbf; [|discriminate].
    exists ch. split; [assumption|]. intros c.
    apply handler_leave; try assumption. simpl in Hbefore. congruence.
Qed.

(** C1 (amended).  For a member that is not a bot, the handler processes an
    event as an enter exactly when the previous location is no channel and
    the new location is the target channel: it then records the clock
    reading as the member's start instant, adds the member to the active set
    and hands the "entered" message to the notifier.  It processes an event
    as a leave exactly when the previous location is the target channel and
    the new location is no channel: it then removes the member's start
    instant and, when a session was open, hands the "left" message to the
    notifier.  Every other event, a move between the
    target channel and another voice channel included, changes nothing and
    emits nothing. *)
Theorem enter_leave_dispatch b now m before after :
  m_bot m = false →
  (handled_as_enter b now m before after
   ↔ vs_channel before = None
     ∧ ch_id <$> vs_channel after = Some (target_vc_id b))
  ∧ (handled_as_leave b now m before after
     ↔ ch_id <$> vs_channel before = Some (target_vc_id b)
       ∧ vs_channel after = None)
  ∧ (∀ ch c,
       enter b now m ch c
       = notify b (entered_message m ch)
           (with_active_users (λ s, {[m_id m]} ∪ s)
              (with_join_times (insert (m_id m) now) c))
       ∧ join_times (enter b now m ch c).2 !! m_id m = Some now)
  ∧ (∀ ch c,
       join_times (leave b now m ch c).2 !! m_id m = None
       ∧ ∀ t, join_times c !! m_id m = Some t → (0 < t)%Q →
           ∃ c0, leave b now m ch c
                 = notify b
                     (left_message m ch (now - t)%Q
                        (default 0%Q (daily_total c !! m_id m) + (now - t))%Q)
                     c0)
  ∧ (is_Some (vs_channel before) → is_Some (vs_channel after) →
     ∀ c, on_voice_state_update b now m before after c = (Return tt, c)).
Proof.
  intros Hb. split; [apply handled_as_enter_iff, Hb|].
  split; [apply handled_as_leave_iff, Hb|]. split; [|split].
  - intros ch c. split; [apply enter_eq|].
    pose proof (enter_state b now m ch c) as (-> & _).
    apply lookup_insert_eq.
  - intros ch c. split.
    + rewrite leave_join_times. apply lookup_delete_eq.
    + intros t Ht Hpos. eexists.
      apply (leave_open_eq b now m ch c t Ht (truthy_pos t Hpos)).
  - intros [bch Hbefore] [ach Hafter] c. apply handler_ignored.
    + rewrite Hbefore. intros [? _]. discriminate.
    + rewrite Hafter. intros [_ ?]. discriminate.
Qed.

End Dispatch.

Lemma enter_leave_dispatch_witness :
  m_bot Sample.alice = false
  ∧ handled_as_enter (FT := FracText.frac_text) Sample.good_bot 100
      Sample.alice Sample.nowhere Sample.in_study.
Proof.
  split; [reflexivity|].
  apply (enter_leave_dispatch (FT := FracText.frac_text) Sample.good_bot 100
           Sample.alice Sample.nowhere Sample.in_study); [reflexivity|].
  split; reflexivity.
Defined.

(** C1, the claim as the specification states it, at a move from another
    voice channel into the target channel: the specification calls it an
    enter, the handler does not process it as one (it ignores the event). *)
Lemma move_into_target_not_enter :
  spec_enter (target_vc_id Sample.good_bot) Sample.in_lounge Sample.in_study
  ∧ ¬ handled_as_enter (FT := FracText.frac_text) Sample.good_bot 100
        Sample.alice Sample.in_lounge Sample.in_study
  ∧ on_voice_state_update (FT := FracText.frac_text) Sample.good_bot 100
      Sample.alice Sample.in_lounge Sample.in_study Sample.fresh
    = (Return tt, Sample.fresh).
Proof.
  split; [split; [discriminate | reflexivity]|].
  split; [|reflexivity].
  intros Henter. apply handled_as_enter_iff in Henter; [|reflexivity].
  destruct Henter as [Hbefore _]. discriminate.
Qed.

(** ** Sessions *)

Section Sessions.
Context {FT : FloatText}.

Lemma leave_open_state b now m ch c t :
  join_times c !! m_id m = Some t → Py.truthy t = true →
  let stay := (now - t)%Q in
  let c' := (leave b now m ch c).2 in
  daily_total c'
  = <[m_id m := (default 0%Q (daily_total c !! m_id m) + stay)%Q]>
      (daily_total c)
  ∧ join_times c' = delete (m_id m) (join_times c)
  ∧ active_users c' = active_users c
  ∧ files c' !! DAILY_TOTALS_PATH = Some (totals_text (daily_total c')).
Proof.
  intros Ht Htr stay c'. subst c'.
  rewrite (leave_open_eq b now m ch c t Ht Htr).
  match goal with |- context [notify ?b ?msg ?c0] =>
    destruct (notify_frame b msg c0) as (_ & -> & -> & -> & ->) end.
  simpl. repeat split. apply saved_totals_lookup.
Qed.

(** C3 (amended).  A leave that closes an open session (a start instant
    [t] is on record; clock readings count seconds since 1970 and are
    positive) hands to the totals the difference [now - t] of the two clock
    readings as it is: the member's total grows by exactly that amount, the
    document is saved, and the "left" message carries it.  Nothing clamps
    the difference: it is non-negative when the clock did not go back, and
    negative when the clock reads an earlier time at the leave than at the
    enter. *)
Theorem leave_duration b now m before after ch c t :
  m_bot m = false → vs_channel before = Some ch →
  ch_id ch = target_vc_id b → vs_channel after = None →
  join_times c !! m_id m = Some t → (0 < t)%Q →
  let stay := (now - t)%Q in
  let total := (default 0%Q (daily_total c !! m_id m) + stay)%Q in
  let r := on_voice_state_update b now m before after c in
  daily_total r.2 = <[m_id m := total]> (daily_total c)
  ∧ join_times r.2 !! m_id m = None
  ∧ files r.2 !! DAILY_TOTALS_PATH = Some (totals_text (daily_total r.2))
  ∧ (∃ c0, r = notify b (left_message m ch stay total) c0)
  ∧ ((t <= now)%Q → (0 <= stay)%Q)
  ∧ ((now < t)%Q → (stay < 0)%Q).
Proof.
  intros Hb Hbefore Hid Hafter Ht Hpos stay total r. subst r.
  pose proof (truthy_pos t Hpos) as Htr.
  rewrite (handler_leave b now m before after ch c Hb Hbefore Hafter Hid).
  pose proof (leave_open_state b now m ch c t Ht Htr) as (Hd & Hj & _ & Hf).
  split; [exact Hd|]. split; [rewrite Hj; apply lookup_delete_eq|].
  split; [exact Hf|]. split.
  - eexists. apply (leave_open_eq b now m ch c t Ht Htr).
  - subst stay. split; intros Hle.
    + apply (Qplus_le_l _ _ t). ring_simplify. exact Hle.
    + apply (Qplus_lt_l _ _ t). ring_simplify. exact Hle.
Qed.

(** C6.  A leave event, in the specification's sense (the previous location
    is the target channel, the new one is not), for a member with no open
    session on record leaves the cog as it is: totals, active set, files
    and trace are unchanged (no duration, no notification, no log record),
    and the handler returns normally. *)
Theorem leave_without_session b now m before after c :
  spec_leave (target_vc_id b) before after →
  join_times c !! m_id m = None →
  on_voice_state_update b now m before after c = (Return tt, c).
Proof.
  intros [Hbefore Hafter] Hnone.
  destruct (m_bot m) eqn:Hb; [apply handler_bot, Hb|].
  destruct (vs_channel before) as [bch|] eqn:Hbf; [|discriminate].
  destruct (vs_channel after) as [ach|] eqn:Haf.
  - apply handler_ignored.
    + rewrite Hbf. intros [? _]. discriminate.
    + rewrite Haf. intros [_ ?]. discriminate.
  - rewrite (handler_leave b now m before after bch c Hb Hbf Haf)
      by (simpl in Hbefore; congruence).
    apply leave_no_session, Hnone.
Qed.

(** C7.  Two enters of one member in a row, at clock readings [t1] and
    [t2], with no leave in between: the second enter replaces the start
    instant [t1] by [t2]; it does nothing but that and the hand-over of the
    "entered" message to the notifier, so the duplicate is no error of its
    own; and the next leave, at [t3], adds [t3 - t2] to the member's total
    (clock readings count seconds since 1970 and are positive). *)
Theorem duplicate_enter b t1 t2 t3 m ch c :
  m_bot m = false → ch_id ch = target_vc_id b → (0 < t2)%Q →
  let outside := {| vs_channel := None |} in
  let inside := {| vs_channel := Some ch |} in
  let c1 := (on_voice_state_update b t1 m outside inside c).2 in
  let r2 := on_voice_state_update b t2 m outside inside c1 in
  let r3 := on_voice_state_update b t3 m inside outside r2.2 in
  join_times c1 !! m_id m = Some t1
  ∧ join_times r2.2 !! m_id m = Some t2
  ∧ r2 = notify b (entered_message m ch)
           (with_join_times (insert (m_id m) t2) c1)
  ∧ daily_total r3.2 !! m_id m
    = Some (default 0%Q (daily_total c !! m_id m) + (t3 - t2))%Q
  ∧ join_times r3.2 !! m_id m = None.
Proof.
  intros Hb Hid Hpos outside inside c1 r2 r3.
  pose proof (truthy_pos t2 Hpos) as Htr.
  assert (∀ now c0, on_voice_state_update b now m outside inside c0
                    = enter b now m ch c0) as Henter.
  { intros now c0. apply handler_enter; auto. }
  assert (∀ now c0, on_voice_state_update b now m inside outside c0
                    = leave b now m ch c0) as Hleave.
  { intros now c0. apply handler_leave; auto. }
  subst r3 r2 c1. rewrite !Henter, Hleave.
  pose proof (enter_state b t1 m ch c) as (Hj1 & Ha1 & Hd1 & _).
  set (c1 := (enter b t1 m ch c).2) in *.
  pose proof (enter_state b t2 m ch c1) as (Hj2 & Ha2 & Hd2 & _).
  assert (join_times (enter b t2 m ch c1).2 !! m_id m = Some t2) as Hopen.
  { rewrite Hj2. apply lookup_insert_eq. }
  split; [rewrite Hj1; apply lookup_insert_eq|].
  split; [exact Hopen|]. split.
  - rewrite enter_eq. f_equal. apply cog_eq; [|reflexivity].
    repeat split. simpl. rewrite Ha1.
    rewrite (assoc_L (∪)), (idemp_L (∪)). reflexivity.
  - pose proof (leave_open_state b t3 m ch _ t2 Hopen Htr) as (Hd & Hj & _).
    rewrite Hd, Hj. rewrite lookup_insert_eq, lookup_delete_eq.
    rewrite Hd2, Hd1. split; reflexivity.
Qed.

End Sessions.

Lemma leave_duration_witness :
  let r := on_voice_state_update (FT := FracText.frac_text) Sample.good_bot
             190 Sample.alice Sample.in_study Sample.nowhere
             Sample.alice_inside in
  daily_total r.2 = <[10 := (0 + (190 - 100))%Q]> ∅.
Proof.
  apply (leave_duration (FT := FracText.frac_text) Sample.good_bot 190
           Sample.alice Sample.in_study Sample.nowhere Sample.study
           Sample.alice_inside 100%Q); reflexivity.
Defined.

(** C3, the claim as the specification states it, when the clock reads 90
    at the leave after 100 at the enter: the specification's duration is 0,
    the handler adds -10 to the total. *)
Lemma leave_not_clamped :
  let r := on_voice_state_update (FT := FracText.frac_text) Sample.good_bot
             90 Sample.alice Sample.in_study Sample.nowhere
             Sample.alice_inside in
  spec_duration 90 100 = 0%Q
  ∧ daily_total r.2 !! 10 = Some (0 + (90 - 100))%Q
  ∧ ¬ (0 + (90 - 100) == 0 + spec_duration 90 100)%Q
  ∧ ((0 + (90 - 100))%Q < 0)%Q.
Proof.
  split; [reflexivity|]. split; [reflexivity|]. split; discriminate || reflexivity.
Qed.

Lemma leave_without_session_witness :
  on_voice_state_update (FT := FracText.frac_text) Sample.good_bot 190
    Sample.alice Sample.in_study Sample.nowhere Sample.alice_90
  = (Return tt, Sample.alice_90).
Proof.
  apply (leave_without_session (FT := FracText.frac_text));
    [split; [reflexivity | discriminate] | reflexivity].
Defined.

Lemma duplicate_enter_witness :
  let c1 := (on_voice_state_update (FT := FracText.frac_text)
               Sample.good_bot 100 Sample.alice Sample.nowhere
               Sample.in_study Sample.fresh).2 in
  let r2 := on_voice_state_update (FT := FracText.frac_text)
              Sample.good_bot 130 Sample.alice Sample.nowhere
              Sample.in_study c1 in
  let r3 := on_voice_state_update (FT := FracText.frac_text)
              Sample.good_bot 190 Sample.alice Sample.in_study
              Sample.nowhere r2.2 in
  daily_total r3.2 !! 10 = Some (0 + (190 - 130))%Q.
Proof.
  apply (duplicate_enter (FT := FracText.frac_text) Sample.good_bot 100 130
           190 Sample.alice Sample.study Sample.fresh); reflexivity.
Defined.

(** ** Notifier *)

Section Notifier.

(** With no destination configured the message is dropped with a warning
    and the caller sees a normal return. *)
Lemma notify_unconfigured b msg c :
  Py.truthy_opt (dest_channel_id c) = false →
  notify b msg c
  = (Return tt,
     with_trace (λ t, t ++ [Log WARNING "VcNotifier"
                              "通知先が未設定です。/admin setchannel を実行してください。"])
       c).
Proof. intros Hd. unfold notify. run_monad. rewrite Hd. reflexivity. Qed.

(** Every failure is caught but one: when the first send raises
    [TypeError], the exception of the plain send leaves [send_to_channel]. *)
Lemma send_to_channel_returns b id msg c :
  (∀ ch, send b ch msg true = Some TypeError → send b ch msg false = None) →
  (send_to_channel b id msg c).1 = Return tt.
Proof.
  intros Hfallback. unfold send_to_channel. run_monad.
  repeat case_match; simpl; try reflexivity;
    match goal with
    | Hs : send b ?ch msg true = Some TypeError,
      Hp : send b ?ch msg false = Some _ |- _ =>
        rewrite (Hfallback ch Hs) in Hp; discriminate
    end.
Qed.

Lemma notify_returns b msg c :
  (∀ ch, send b ch msg true = Some TypeError → send b ch msg false = None) →
  (notify b msg c).1 = Return tt.
Proof.
  intros Hfallback. unfold notify. run_monad. case_match; [reflexivity|].
  apply send_to_channel_returns, Hfallback.
Qed.

Lemma send_to_channel_raises b id msg c ch e :
  get_channel b id = Some ch →
  send b ch msg true = Some TypeError → send b ch msg false = Some e →
  send_to_channel b id msg c = (Raise e, c).
Proof.
  intros Hch Hs Hp. unfold send_to_channel. rewrite Hch, Hs, Hp. reflexivity.
Qed.

(** The channel object [send_to_channel] ends up with, if any. *)
Lemma send_to_channel_raises_iff b id msg c e :
  (send_to_channel b id msg c).1 = Raise e
  ↔ ∃ ch, (get_channel b id = Some ch
           ∨ (get_channel b id = None ∧ fetch_channel b id = inr ch))
          ∧ send b ch msg true = Some TypeError
          ∧ send b ch msg false = Some e.
Proof.
  unfold send_to_channel. run_monad. split.
  - repeat case_match; simpl; intros Hr; try discriminate Hr;
      injection Hr as <-; eexists; (split; [|split]); eauto.
  - intros (ch & [Hc | [Hc Hf]] & Hs & Hp).
    + rewrite Hc, Hs, Hp. reflexivity.
    + rewrite Hc, Hf, Hs, Hp. reflexivity.
Qed.

(** The only exception that leaves [notify] is the one of the plain send
    of the fallback. *)
Lemma notify_raises_iff b msg c e :
  (notify b msg c).1 = Raise e
  ↔ Py.truthy_opt (dest_channel_id c) = true
    ∧ ∃ ch, (get_channel b (default 0 (dest_channel_id c)) = Some ch
             ∨ (get_channel b (default 0 (dest_channel_id c)) = None
                ∧ fetch_channel b (default 0 (dest_channel_id c)) = inr ch))
            ∧ send b ch msg true = Some TypeError
            ∧ send b ch msg false = Some e.
Proof.
  unfold notify. run_monad.
  destruct (Py.truthy_opt (dest_channel_id c)); simpl.
  - rewrite send_to_channel_raises_iff. tauto.
  - split; [discriminate | intros [? _]; discriminate].
Qed.

End Notifier.

(** C4 at its failing input.  The destination is configured and resolves;
    the library has no [suppress_notifications] keyword, so the first send
    raises [TypeError]; the plain send of the fallback raises [Forbidden].
    That exception is raised inside the [except TypeError] handler, where
    the later [except] clauses of the same [try] do not apply: it leaves
    [send_to_channel] and [notify], and nothing is logged. *)
Theorem notify_fallback_failure_propagates :
  notify Sample.old_forbidden_bot "hello" Sample.fresh
  = (Raise Forbidden, Sample.fresh).
Proof. reflexivity. Qed.

(** ** Rollover *)

Section Rollover.
Context {FT : FloatText}.

Lemma fires_iff epoch c :
  fires epoch c = true
  ↔ hour epoch = 23 ∧ minute epoch = 59 ∧ active_users c ≠ ∅.
Proof.
  unfold fires. rewrite !andb_true_iff, negb_true_iff.
  rewrite !bool_decide_eq_true, bool_decide_eq_false. tauto.
Qed.

(** The fixed offset: 23:59 at UTC+9 is 14:59 UTC, whatever the zone of the
    host. *)
Lemma fires_utc epoch c :
  fires epoch c = true
  ↔ (epoch / 3600) mod 24 = 14 ∧ (epoch / 60) mod 60 = 59
    ∧ active_users c ≠ ∅.
Proof.
  rewrite fires_iff. unfold hour, minute, JST.
  rewrite (Z.div_add epoch 9 3600) by lia.
  replace (epoch + 9 * 3600) with (epoch + 540 * 60) by lia.
  rewrite (Z.div_add epoch 540 60) by lia.
  replace ((epoch / 60 + 540) mod 60) with ((epoch / 60) mod 60).
  2:{ replace 540 with (9 * 60) by lia. rewrite Z.mod_add by lia.
      reflexivity. }
  pose proof (Z.mod_pos_bound (epoch / 3600) 24 ltac:(lia)).
  pose proof (Z.mod_pos_bound (epoch / 3600 + 9) 24 ltac:(lia)).
  assert ((epoch / 3600 + 9) mod 24 = 23 ↔ (epoch / 3600) mod 24 = 14)
    as Hh.
  { rewrite <- (Zplus_mod_idemp_l (epoch / 3600) 9 24).
    split; intros Hm.
    - destruct (decide ((epoch / 3600) mod 24 + 9 < 24)) as [Hlt | Hge].
      + rewrite Z.mod_small in Hm by lia. lia.
      + replace ((epoch / 3600) mod 24 + 9)
          with ((epoch / 3600) mod 24 + 9 - 24 + 1 * 24) in Hm by lia.
        rewrite Z.mod_add in Hm by lia.
        rewrite Z.mod_small in Hm by lia. lia.
    - rewrite Hm. reflexivity. }
  rewrite Hh. tauto.
Qed.

(** A tick off the cutoff, or with nobody active, does nothing. *)
Lemma daily_summary_idle b epoch order c :
  fires epoch c = false → daily_summary b epoch order c = (Return tt, c).
Proof. intros Hf. unfold daily_summary. run_monad. rewrite Hf. reflexivity. Qed.

(** A firing tick hands exactly one message to the notifier, the joined
    summary lines, and resets when the notifier returns. *)
Lemma daily_summary_fires b epoch order c :
  fires epoch c = true →
  daily_summary b epoch order c
  = match notify b (Py.join Py.nl (msg_lines b order c)) c with
    | (Return _, c') => (Return tt, after_reset c')
    | (Raise e, c') => (Raise e, c')
    end.
Proof.
  intros Hf. unfold daily_summary. run_monad. rewrite Hf.
  destruct (notify b (Py.join Py.nl (msg_lines b order c)) c) as [[[]|e] c'];
    reflexivity.
Qed.

Lemma after_reset_state c :
  daily_total (after_reset c) = ∅
  ∧ active_users (after_reset c) = ∅
  ∧ files (after_reset c) !! DAILY_TOTALS_PATH = Some "{}"
  ∧ join_times (after_reset c) = join_times c
  ∧ ∀ epoch, fires epoch (after_reset c) = false.
Proof.
  repeat split.
  - change (files (after_reset c))
      with (fs_run (_save_daily_totals_ops ∅) (files c)).
    rewrite saved_totals_lookup. unfold totals_text. rewrite map_to_list_empty. reflexivity.
  - intros epoch. unfold fires, after_reset. simpl.
    rewrite (bool_decide_eq_true_2 (∅ = ∅)) by reflexivity.
    apply andb_false_r.
Qed.

(** The rollover as the specification describes it, for a notifier that
    returns: the tick fires exactly at 23:59 JST with a non-empty active
    set; it hands one message to the notifier; afterwards totals and active
    set are empty, the saved document is the empty object, and no later tick
    fires on that state. *)
Lemma rollover_when_notifier_returns b epoch order c :
  (notify b (Py.join Py.nl (msg_lines b order c)) c).1 = Return tt →
  let r := daily_summary b epoch order c in
  (fires epoch c = false → r = (Return tt, c))
  ∧ (fires epoch c = true →
     r = (Return tt,
          after_reset (notify b (Py.join Py.nl (msg_lines b order c)) c).2)
     ∧ daily_total r.2 = ∅ ∧ active_users r.2 = ∅
     ∧ files r.2 !! DAILY_TOTALS_PATH = Some "{}"
     ∧ ∀ epoch', fires epoch' r.2 = false).
Proof.
  intros Hret r. subst r. split; [apply daily_summary_idle|].
  intros Hf. rewrite (daily_summary_fires b epoch order c Hf).
  destruct (notify b (Py.join Py.nl (msg_lines b order c)) c) as [[[]|e] c'];
    [|discriminate].
  simpl. pose proof (after_reset_state c') as (? & ? & ? & _ & ?).
  repeat split; assumption.
Qed.

(** Every active member has a line in the summary. *)
Lemma summary_line_in b order c uid :
  iterates order c → uid ∈ active_users c →
  summary_line b (daily_total c) uid ∈ msg_lines b order c.
Proof.
  intros Hit Hin. unfold msg_lines.
  apply elem_of_app. right. apply elem_of_app. left.
  apply list_elem_of_fmap_2. rewrite Hit. apply elem_of_elements, Hin.
Qed.

(** The lines of the summary are the two header lines, one line per active
    member and the two footer lines. *)
Lemma msg_lines_length b order c :
  iterates order c →
  length (msg_lines b order c) = (size (active_users c) + 4)%nat.
Proof.
  intros Hit. unfold msg_lines. rewrite !length_app, length_fmap, Hit. simpl.
  unfold size, set_size. simpl. lia.
Qed.

End Rollover.

(** C5 at its failing input.  At 23:59 JST with Alice active the tick
    fires, but the destination refuses the message the way the notifier
    does not catch (first send [TypeError], plain send [Forbidden]): the
    exception leaves [notify] and ends the tick before the reset, so
    totals, active set and the saved document stay as they were. *)
Theorem rollover_aborted_by_notifier :
  let r := daily_summary (FT := FracText.frac_text)
             Sample.old_forbidden_bot Sample.cutoff [10] Sample.alice_90 in
  hour Sample.cutoff = 23 ∧ minute Sample.cutoff = 59
  ∧ fires Sample.cutoff Sample.alice_90 = true
  ∧ r = (Raise Forbidden, Sample.alice_90)
  ∧ daily_total r.2 !! 10 = Some 90%Q
  ∧ active_users r.2 ≠ ∅.
Proof.
  split; [reflexivity|]. split; [reflexivity|]. split; [reflexivity|].
  split; [reflexivity|]. split; [reflexivity|].
  intros Hempty. apply (f_equal (λ s, bool_decide (10 ∈ s))) in Hempty.
  vm_compute in Hempty. discriminate.
Qed.

(** ** Saving the documents *)

(** The destination save goes through the temporary file: a reader of
    [config.json] sees the previous document until the rename and the
    complete new one after it. *)
Lemma save_dest_atomic (ch_id : option Z) fs :
  atomic_save CONFIG_PATH (save_persisted_dest_channel_id_ops ch_id)
    (config_text ch_id) fs
  ∧ fs_run (save_persisted_dest_channel_id_ops ch_id) fs !! CONFIG_PATH
    = Some (config_text ch_id).
Proof.
  assert (CONFIG_TMP_PATH ≠ CONFIG_PATH) as Hne by discriminate.
  split.
  - intros o Ho. unfold save_persisted_dest_channel_id_ops in Ho.
    simpl in Ho.
    rewrite lookup_alter_eq, lookup_insert_eq in Ho. simpl in Ho.
    rewrite lookup_insert_eq in Ho.
    rewrite lookup_alter_ne, lookup_insert_ne in Ho by exact Hne.
    rewrite !elem_of_cons, elem_of_nil in Ho.
    destruct Ho as [-> | [-> | [-> | [-> | []]]]]; auto.
  - unfold fs_run, save_persisted_dest_channel_id_ops. simpl.
    rewrite lookup_alter_eq, lookup_insert_eq. simpl.
    apply lookup_insert_eq.
Qed.

(** C2 at its failing input.  The totals save of a cog that already has a
    totals document (Alice, 90 seconds) and now holds 120 seconds opens
    [daily_totals.json] itself for writing.  There is no temporary file and
    no rename.  Between the open and the write a reader sees the empty
    file, which is neither the previous document nor the new one; a load at
    that point finds no totals and logs the failure. *)
Theorem totals_save_truncates_in_place :
  let FT := FracText.frac_text in
  let fs := files Sample.alice_90 in
  let new := totals_text {[10 := 120%Q]} in
  let ops := _save_daily_totals_ops {[10 := 120%Q]} in
  ops = [Open_w DAILY_TOTALS_PATH; Write DAILY_TOTALS_PATH new]
  ∧ observations DAILY_TOTALS_PATH ops fs
    = [Some (totals_text {[10 := 90%Q]}); Some EmptyString; Some new]
  ∧ ¬ atomic_save DAILY_TOTALS_PATH ops new fs
  ∧ _load_daily_totals (fs_step fs (Open_w DAILY_TOTALS_PATH))
    = (∅, [Log WARNING "VcNotifier" "daily_totals.json 読み込み失敗: %s"]).
Proof.
  intros FT fs new ops. split; [reflexivity|].
  assert (observations DAILY_TOTALS_PATH ops fs
          = [Some (totals_text {[10 := 90%Q]}); Some EmptyString; Some new])
    as Hobs by reflexivity.
  split; [exact Hobs|]. split; [|reflexivity].
  intros Hatomic.
  destruct (Hatomic (Some EmptyString)) as [Hold | Hnew].
  - rewrite Hobs. apply list_elem_of_further, list_elem_of_here.
  - vm_compute in Hold. discriminate.
  - vm_compute in Hnew. discriminate.
Qed.

(** ** Reading a document back *)

Module JsonFacts.
Import Json.

#[local] Arguments String.append !_ _ / : simpl nomatch.

Lemma append_assoc (a b c : string) : (a +:+ b) +:+ c = a +:+ (b +:+ c).
Proof.
  induction a as [|x a IH]; cbn [String.append]; [reflexivity|].
  f_equal. exact IH.
Qed.

Lemma append_nil_r (a : string) : a +:+ EmptyString = a.
Proof.
  induction a as [|x a IH]; cbn [String.append]; [reflexivity|].
  f_equal. exact IH.
Qed.

Lemma sforall_app P (a b : string) :
  sforall P (a +:+ b) = sforall P a && sforall P b.
Proof.
  induction a as [|x a IH]; cbn [String.append sforall]; [reflexivity|].
  rewrite IH. apply andb_assoc.
Qed.

Lemma sforall_impl (P R : ascii → bool) (s : string) :
  (∀ c, P c = true → R c = true) → sforall P s = true → sforall R s = true.
Proof.
  intros HPR. induction s as [|x s IH]; simpl; [reflexivity|].
  rewrite !andb_true_iff. intros [Hx Hs]. split; auto.
Qed.

Lemma prun_app st (a b : string) : prun st (a +:+ b) = prun (prun st a) b.
Proof.
  revert st. induction a as [|x a IH]; intros st; simpl;
    [reflexivity | apply IH].
Qed.

Lemma prun_key acc k0 k rest :
  sforall key_char k = true →
  prun (PKey acc k0) (k +:+ String dquote rest)
  = prun (PColon acc (k0 +:+ k)) rest.
Proof.
  revert k0. induction k as [|c k IH]; intros k0 Hk.
  - simpl. rewrite append_nil_r. reflexivity.
  - simpl in Hk. apply andb_true_iff in Hk as [Hc Hk].
    unfold key_char in Hc. apply negb_true_iff, orb_false_iff in Hc
      as [Hq Hb].
    cbn [String.append prun pstep]. rewrite Hq, Hb.
    rewrite (IH _ Hk). unfold snoc. rewrite append_assoc. reflexivity.
Qed.

Lemma plain_inv c :
  is_plain c = true →
  is_ws c = false ∧ Ascii.eqb c "," = false ∧ Ascii.eqb c "}" = false.
Proof.
  unfold is_plain. rewrite negb_true_iff, !orb_false_iff. tauto.
Qed.

Lemma prun_value acc key tok s rest :
  sforall is_plain s = true →
  prun (PValue acc key tok) (s +:+ rest)
  = prun (PValue acc key (tok +:+ s)) rest.
Proof.
  revert tok. induction s as [|c s IH]; intros tok Hs.
  - simpl. rewrite append_nil_r. reflexivity.
  - simpl in Hs. apply andb_true_iff in Hs as [Hc Hs].
    destruct (plain_inv c Hc) as (Hws & Hcomma & Hbrace).
    cbn [String.append prun pstep]. rewrite Hws, Hcomma, Hbrace, Hc.
    rewrite (IH _ Hs). unfold snoc. rewrite append_assoc. reflexivity.
Qed.

Lemma prun_value0 acc key tok rest :
  tok ≠ EmptyString → sforall is_plain tok = true →
  prun (PValue0 acc key) (tok +:+ rest) = prun (PValue acc key tok) rest.
Proof.
  destruct tok as [|c s]; [congruence|]. intros _ Hs.
  simpl in Hs. apply andb_true_iff in Hs as [Hc Hs].
  destruct (plain_inv c Hc) as (Hws & _).
  cbn [String.append prun pstep]. rewrite Hws, Hc.
  apply (prun_value acc key (String c EmptyString) s rest Hs).
Qed.

Lemma prun_item acc kv rest :
  readable kv →
  prun (PKey acc EmptyString)
    (kv.1 +:+ String dquote (String ":" (String " " (kv.2 +:+ rest))))
  = prun (PValue acc kv.1 kv.2) rest.
Proof.
  intros (Hk & Hne & Hv). rewrite (prun_key _ _ _ _ Hk).
  cbn [String.append prun pstep]. simpl is_ws. simpl Ascii.eqb.
  cbn iota. apply (prun_value0 _ _ _ _ Hne Hv).
Qed.

Lemma item_app kv rest :
  item kv +:+ rest
  = String dquote
      (kv.1 +:+ String dquote (String ":" (String " " (kv.2 +:+ rest)))).
Proof.
  unfold item, quoted. cbn [String.append].
  rewrite !append_assoc. reflexivity.
Qed.

Lemma prun_open rest :
  prun PStart ("{" +:+ nl +:+ "  " +:+ String dquote rest)
  = prun (PKey [] EmptyString) rest.
Proof. reflexivity. Qed.

Lemma prun_separator acc k v rest :
  prun (PValue acc k v) ("," +:+ nl +:+ "  " +:+ String dquote rest)
  = prun (PKey (acc ++ [(k, v)]) EmptyString) rest.
Proof. reflexivity. Qed.

Lemma prun_close acc k v :
  prun (PValue acc k v) (nl +:+ "}") = PDone (acc ++ [(k, v)]).
Proof. reflexivity. Qed.

Lemma more_items_cons kv l tail :
  more_items (kv :: l) +:+ tail
  = "," +:+ nl +:+ "  "
    +:+ String dquote
          (kv.1 +:+ String dquote
             (String ":" (String " " (kv.2 +:+ more_items l +:+ tail)))).
Proof.
  cbn [more_items]. rewrite !append_assoc. rewrite item_app.
  reflexivity.
Qed.

Lemma prun_more_items acc kv l :
  readable kv → Forall readable l →
  prun (PValue acc kv.1 kv.2) (more_items l +:+ nl +:+ "}")
  = PDone (acc ++ kv :: l).
Proof.
  revert acc kv. induction l as [|kv' l IH]; intros acc kv Hkv Hl.
  - destruct kv. apply prun_close.
  - apply Forall_cons in Hl as [Hkv' Hl].
    rewrite more_items_cons, prun_separator.
    rewrite (prun_item _ _ _ Hkv'). rewrite (IH _ _ Hkv' Hl).
    destruct kv. simpl. rewrite <- app_assoc. reflexivity.
Qed.

Lemma dumps_object_cons kv l :
  dumps_object (kv :: l)
  = "{" +:+ nl +:+ "  "
    +:+ String dquote
          (kv.1 +:+ String dquote
             (String ":"
                (String " " (kv.2 +:+ more_items l +:+ nl +:+ "}")))).
Proof.
  unfold dumps_object. rewrite item_app. reflexivity.
Qed.

(** The scanner reads back what [dumps_object] writes. *)
Lemma loads_dumps_object (l : list (string * string)) :
  Forall readable l → loads_object (dumps_object l) = Some l.
Proof.
  intros Hl. unfold loads_object. destruct l as [|kv l]; [reflexivity|].
  apply Forall_cons in Hl as [Hkv Hl].
  rewrite dumps_object_cons, prun_open.
  rewrite (prun_item _ _ _ Hkv).
  rewrite (prun_more_items [] kv l Hkv Hl). reflexivity.
Qed.

End JsonFacts.

(** ** Text of integers *)

Module StrFacts.
Import Json JsonFacts.

#[local] Arguments String.append !_ _ / : simpl nomatch.

Lemma uint_numeric d : sforall numeric (NilEmpty.string_of_uint d) = true.
Proof. induction d; simpl; auto. Qed.

Lemma str_numeric (n : Z) : sforall numeric (Py.str n) = true.
Proof.
  unfold Py.str, NilZero.string_of_int, NilZero.string_of_uint.
  destruct (Z.to_int n) as [d | d]; destruct d; simpl;
    try reflexivity; apply uint_numeric.
Qed.

Lemma str_nonempty (n : Z) : Py.str n ≠ EmptyString.
Proof.
  unfold Py.str, NilZero.string_of_int, NilZero.string_of_uint.
  destruct (Z.to_int n) as [d | d]; destruct d; discriminate.
Qed.

Lemma int_of_str_str (n : Z) : Py.int_of_str (Py.str n) = Some n.
Proof.
  unfold Py.int_of_str, Py.str. rewrite NilZero.isi.
  - simpl. f_equal. apply DecimalZ.of_to.
  - destruct n; simpl; try discriminate.
    intros [= Hnil]. apply (DecimalPos.Unsigned.to_uint_nonnil _ Hnil).
  - destruct n; simpl; try discriminate.
    intros [= Hnil]. apply (DecimalPos.Unsigned.to_uint_nonnil _ Hnil).
Qed.

Lemma numeric_key c : numeric c = true → key_char c = true.
Proof.
  destruct c as [[] [] [] [] [] [] [] []]; intros Hc;
    solve [reflexivity | discriminate Hc].
Qed.

Lemma numeric_plain c : numeric c = true → is_plain c = true.
Proof.
  destruct c as [[] [] [] [] [] [] [] []]; intros Hc;
    solve [reflexivity | discriminate Hc].
Qed.

Lemma numeric_not c x :
  numeric x = false → numeric c = true → negb (Ascii.eqb c x) = true.
Proof.
  intros Hx Hc. apply negb_true_iff, Ascii.eqb_neq. intros ->. congruence.
Qed.

(** A rendered member of the totals document can be read back. *)
Lemma totals_member_readable {FT : FloatText} {L : FloatTextLaws FT}
    (kv : Z * Q) :
  readable (Py.str kv.1, float_repr kv.2).
Proof.
  split; [|split]; simpl.
  - apply (sforall_impl numeric); [apply numeric_key | apply str_numeric].
  - apply float_repr_nonempty.
  - apply float_repr_plain.
Qed.

End StrFacts.

(** ** The dict comprehension of the load *)

Section DictOfItems.
Context {FT : FloatText} {L : FloatTextLaws FT}.

Lemma dict_of_items_encode (l : list (Z * Q)) (acc : gmap Z Q) :
  foldl (λ acc kv,
           d ← acc; k ← Py.int_of_str kv.1; v ← float_of_json kv.2;
           Some (<[k := v]> d))
        (Some acc) (encode <$> l)
  = Some (foldl (λ d kv, <[kv.1 := kv.2]> d) acc l).
Proof.
  revert acc. induction l as [|[k v] l IH]; intros acc; [reflexivity|].
  simpl. rewrite StrFacts.int_of_str_str. simpl.
  rewrite float_of_json_repr. simpl. apply IH.
Qed.

Lemma foldl_insert_list_to_map (l : list (Z * Q)) :
  NoDup l.*1 →
  foldl (λ d kv, <[kv.1 := kv.2]> d) (∅ : gmap Z Q) l = list_to_map l.
Proof.
  induction l as [|[k v] l IH] using rev_ind; intros Hnd; [reflexivity|].
  rewrite fmap_app in Hnd. apply NoDup_app in Hnd as (Hl & Hk & _).
  rewrite foldl_app. simpl. rewrite (IH Hl).
  rewrite list_to_map_snoc; [reflexivity|].
  intros Hin. apply (Hk k Hin). simpl. apply list_elem_of_here.
Qed.

Lemma dict_of_items_totals (T : gmap Z Q) :
  dict_of_items (encode <$> map_to_list T) = Some T.
Proof.
  unfold dict_of_items. rewrite dict_of_items_encode.
  rewrite foldl_insert_list_to_map by apply NoDup_fst_map_to_list.
  rewrite list_to_map_to_list. reflexivity.
Qed.

Lemma load_saved_text (T : gmap Z Q) fs :
  fs !! DAILY_TOTALS_PATH = Some (totals_text T) →
  _load_daily_totals fs = (T, []).
Proof.
  intros Hfs. unfold _load_daily_totals. rewrite Hfs.
  unfold totals_text. rewrite JsonFacts.loads_dumps_object.
  - simpl. change (λ kv : Z * Q, (Py.str kv.1, float_repr kv.2)) with encode.
    rewrite dict_of_items_totals. reflexivity.
  - apply Forall_fmap, Forall_forall. intros kv _.
    apply StrFacts.totals_member_readable.
Qed.

(** C9.  Saving the totals [T] and loading them back gives [T]: the save
    returns normally, and the load of the files it leaves yields the
    mapping [T] and logs no failure.  This holds for every mapping, the
    empty one included, over any float text that obeys the laws of
    Python's [float.__repr__] and [float()]. *)
Theorem totals_round_trip (T : gmap Z Q) (c : cog) :
  daily_total c = T →
  (_save_daily_totals c).1 = Return tt
  ∧ _load_daily_totals (files (_save_daily_totals c).2) = (T, []).
Proof.
  intros <-. split; [reflexivity|].
  apply load_saved_text. rewrite save_daily_totals_eq.
  apply saved_totals_lookup.
Qed.

End DictOfItems.

(** ** The concrete float text obeys the laws *)

Module FracTextFacts.
Import Json JsonFacts StrFacts FracText.

#[local] Arguments String.append !_ _ / : simpl nomatch.

Lemma split_at_none c (s : string) :
  sforall (λ x, negb (Ascii.eqb x c)) s = true → split_at c s = None.
Proof.
  induction s as [|a s IH]; simpl; [reflexivity|].
  rewrite andb_true_iff, negb_true_iff. intros [-> Hs].
  rewrite (IH Hs). reflexivity.
Qed.

Lemma split_at_app c (a b : string) :
  sforall (λ x, negb (Ascii.eqb x c)) a = true →
  split_at c (a +:+ String c b) = Some (a, b).
Proof.
  induction a as [|x a IH]; simpl.
  - intros _. rewrite Ascii.eqb_refl. reflexivity.
  - rewrite andb_true_iff, negb_true_iff. intros [-> Ha].
    rewrite (IH Ha). reflexivity.
Qed.

Lemma str_without x (n : Z) :
  numeric x = false → sforall (λ c, negb (Ascii.eqb c x)) (Py.str n) = true.
Proof.
  intros Hx. apply (sforall_impl numeric); [|apply str_numeric].
  intros c. apply numeric_not, Hx.
Qed.

Lemma of_json_repr (q : Q) : of_json (repr q) = Some q.
Proof.
  destruct q as [n d]. unfold of_json, repr. simpl Qden. simpl Qnum.
  assert (of_json_frac :
    ∀ text, text = Py.str n +:+ "/" +:+ Py.str (Z.pos d) →
      match split_at "." text with
      | Some (a, b) =>
          if String.eqb b "0" then (λ n, n # 1) <$> Py.int_of_str a else None
      | None =>
          lr ← split_at "/" text;
          n ← Py.int_of_str lr.1;
          d ← Py.int_of_str lr.2;
          match d with
          | Zpos p => Some (n # p)
          | _ => None
          end
      end = Some (n # d)).
  { intros text ->.
    change (Py.str n +:+ "/" +:+ Py.str (Z.pos d))
      with (Py.str n +:+ String "/" (Py.str (Z.pos d))).
    rewrite split_at_none.
    - rewrite (split_at_app "/") by (apply str_without; reflexivity).
      simpl. rewrite !int_of_str_str. reflexivity.
    - rewrite sforall_app. rewrite (str_without "." n) by reflexivity.
      simpl. apply (str_without "."). reflexivity. }
  destruct d; try (apply of_json_frac; reflexivity).
  rewrite (split_at_app "." (Py.str n) "0")
    by (apply str_without; reflexivity).
  simpl. rewrite int_of_str_str. reflexivity.
Qed.

Lemma repr_nonempty (q : Q) : repr q ≠ EmptyString.
Proof.
  unfold repr. pose proof (str_nonempty (Qnum q)) as Hne.
  destruct (Qden q); destruct (Py.str (Qnum q)); try congruence;
    discriminate.
Qed.

Lemma repr_plain (q : Q) : sforall is_plain (repr q) = true.
Proof.
  assert (∀ n, sforall is_plain (Py.str n) = true) as Hstr.
  { intros n. apply (sforall_impl numeric);
      [apply numeric_plain | apply str_numeric]. }
  unfold repr. destruct (Qden q); rewrite !sforall_app, !Hstr; reflexivity.
Qed.

Lemma frac_text_laws : FloatTextLaws frac_text.
Proof.
  split; [apply of_json_repr | apply repr_nonempty | apply repr_plain].
Qed.

End FracTextFacts.

Lemma totals_round_trip_witness :
  daily_total Sample.alice_90 = {[10 := 90%Q]}
  ∧ _load_daily_totals (FT := FracText.frac_text)
      (files (_save_daily_totals (FT := FracText.frac_text)
                Sample.alice_90).2)
    = ({[10 := 90%Q]}, []).
Proof.
  split; [reflexivity|].
  apply (totals_round_trip (L := FracTextFacts.frac_text_laws)
           {[10 := 90%Q]} Sample.alice_90).
  reflexivity.
Defined.

(** ** Scenarios *)

(** The end-to-end scenario of the specification: Alice enters, leaves 90
    seconds later, enters again and leaves 30 seconds later.  The two "left"
    messages show the sessions and the running totals. *)
Example two_sessions :
  let FT := FracText.frac_text in
  let b := Sample.good_bot in
  let c1 := (on_voice_state_update b 1000 Sample.alice Sample.nowhere
               Sample.in_study Sample.fresh).2 in
  let c2 := (on_voice_state_update b 1090 Sample.alice Sample.in_study
               Sample.nowhere c1).2 in
  let c3 := (on_voice_state_update b 2000 Sample.alice Sample.nowhere
               Sample.in_study c2).2 in
  let c4 := (on_voice_state_update b 2030 Sample.alice Sample.in_study
               Sample.nowhere c3).2 in
  trace c4
  = [Sent 7 "**alice** が **study** に参加しました" true;
     Log INFO "VcNotifier" "daily_totals.json に合計滞在時間を保存しました。";
     Sent 7 "**alice** が **study** から退出しました（滞在 1分30秒／累計 1分30秒）"
       true;
     Sent 7 "**alice** が **study** に参加しました" true;
     Log INFO "VcNotifier" "daily_totals.json に合計滞在時間を保存しました。";
     Sent 7 "**alice** が **study** から退出しました（滞在 30秒／累計 2分0秒）" true]
  ∧ _load_daily_totals (files c4) = ({[10 := (0 + (1090 - 1000) + (2030 - 2000))%Q]}, []).
Proof. split; reflexivity. Qed.

(** A rollover with a destination that accepts the message: one summary is
    delivered, then totals and active set are empty and the saved document
    is the empty object. *)
Example rollover_delivered :
  let FT := FracText.frac_text in
  let r := daily_summary Sample.good_bot Sample.cutoff [10] Sample.alice_90 in
  r.1 = Return tt
  ∧ trace r.2
    = [Sent 7
         (Py.join Py.nl
            ["📊 **本日の勉強時間まとめ**"; EmptyString; "・**<@10>**：1分30秒";
             EmptyString; "🌙今日もお疲れさまでした！"])
         true;
       Log INFO "VcNotifier" "daily_totals.json に合計滞在時間を保存しました。"]
  ∧ daily_total r.2 = ∅ ∧ active_users r.2 = ∅
  ∧ files r.2 !! DAILY_TOTALS_PATH = Some "{}".
Proof. repeat split; reflexivity. Qed.

(** A rollover with two active members, of whom the second has no total
    on record.  Both orders are iterations of the set; with the members
    iterated as 10, 11 the summary lists them in that order. *)
Example rollover_two_members :
  let FT := FracText.frac_text in
  let c := {| dest_channel_id := Some 7; join_times := ∅;
              daily_total := {[10 := 90%Q]}; active_users := {[10; 11]};
              files := ∅; trace := [] |} in
  let r := daily_summary Sample.good_bot Sample.cutoff [10; 11] c in
  iterates [10; 11] c ∧ iterates [11; 10] c
  ∧ trace r.2
    = [Sent 7
         (Py.join Py.nl
            ["📊 **本日の勉強時間まとめ**"; EmptyString; "・**<@10>**：1分30秒";
             "・**<@11>**：0秒"; EmptyString; "🌙今日もお疲れさまでした！"])
         true;
       Log INFO "VcNotifier" "daily_totals.json に合計滞在時間を保存しました。"].
Proof.
  assert (elements ({[10; 11]} : gset Z) ≡ₚ [10; 11]) as Hel.
  { apply NoDup_Permutation.
    - apply NoDup_elements.
    - repeat constructor; rewrite ?elem_of_cons, ?elem_of_nil; lia.
    - intros x. rewrite elem_of_elements, elem_of_union, !elem_of_singleton.
      rewrite !elem_of_cons, elem_of_nil. tauto. }
  split; [|split].
  - unfold iterates. simpl. rewrite Hel. reflexivity.
  - unfold iterates. simpl. rewrite Hel. apply Permutation_swap.
  - reflexivity.
Qed.

(** * Further properties *)

(** ** What one handler call can do *)

Section HandlerFrame.
Context {FT : FloatText}.

(** The handler does nothing, or runs the enter branch, or runs the leave
    branch. *)
Lemma handler_cases b now m before after c :
  on_voice_state_update b now m before after c = (Return tt, c)
  ∨ (∃ ch, on_voice_state_update b now m before after c = enter b now m ch c)
  ∨ (∃ ch, on_voice_state_update b now m before after c = leave b now m ch c).
Proof.
  unfold on_voice_state_update.
  destruct (m_bot m); [left; reflexivity|].
  destruct (negb _); [left; reflexivity|].
  destruct (vs_channel before) as [bch|], (vs_channel after) as [ach|];
    eauto.
Qed.

(** The cog after the leave branch, in each of its three cases. *)
Lemma leave_state b now m ch c :
  let c' := (leave b now m ch c).2 in
  join_times c' = delete (m_id m) (join_times c)
  ∧ active_users c' = active_users c
  ∧ dest_channel_id c' = dest_channel_id c
  ∧ ((daily_total c' = daily_total c ∧ files c' = files c)
     ∨ (∃ t, join_times c !! m_id m = Some t ∧ Py.truthy t = true
             ∧ daily_total c'
               = <[m_id m := (total_of c (m_id m) + (now - t))%Q]>
                   (daily_total c)
             ∧ files c'
               = fs_run (_save_daily_totals_ops (daily_total c'))
                   (files c))).
Proof.
  intros c'. subst c'.
  destruct (join_times c !! m_id m) as [t|] eqn:Ht.
  - destruct (Py.truthy t) eqn:Htr.
    + rewrite (leave_open_eq b now m ch c t Ht Htr).
      match goal with |- context [notify ?b ?msg ?c0] =>
        destruct (notify_frame b msg c0) as (-> & -> & -> & -> & ->) end.
      simpl. split; [reflexivity|]. split; [reflexivity|].
      split; [reflexivity|]. right. exists t.
      split; [reflexivity|]. split; [exact Htr|]. split; reflexivity.
    + unfold leave. run_monad. rewrite Ht, Htr. simpl.
      split; [reflexivity|]. split; [reflexivity|]. split; [reflexivity|].
      left. split; reflexivity.
  - rewrite leave_no_session by assumption. simpl.
    split; [symmetry; apply delete_id, Ht|].
    split; [reflexivity|]. split; [reflexivity|].
    left. split; reflexivity.
Qed.

End HandlerFrame.

Section HandlerEffects.
Context {FT : FloatText}.

Lemma saved_totals_other (d : gmap Z Q) fs p :
  p ≠ DAILY_TOTALS_PATH →
  fs_run (_save_daily_totals_ops d) fs !! p = fs !! p.
Proof.
  intros Hp. unfold fs_run, _save_daily_totals_ops. simpl.
  rewrite lookup_alter_ne, lookup_insert_ne by congruence. reflexivity.
Qed.

(** X1.  A presence event of one member leaves every other member's open
    session and total as they are; it never changes the destination, never
    removes anybody from the active set and writes no file but the totals
    document. *)
Theorem handler_touches_one_member b now m before after c :
  let c' := (on_voice_state_update b now m before after c).2 in
  (∀ k, k ≠ m_id m →
        join_times c' !! k = join_times c !! k
        ∧ daily_total c' !! k = daily_total c !! k)
  ∧ dest_channel_id c' = dest_channel_id c
  ∧ active_users c ⊆ active_users c'
  ∧ (∀ p, p ≠ DAILY_TOTALS_PATH → files c' !! p = files c !! p).
Proof.
  intros c'. subst c'.
  destruct (handler_cases b now m before after c)
    as [-> | [[ch ->] | [ch ->]]].
  - simpl. repeat split; reflexivity.
  - pose proof (enter_state b now m ch c) as (-> & -> & -> & -> & ->).
    split; [|split; [reflexivity|split]].
    + intros k Hk. rewrite lookup_insert_ne by congruence.
      split; reflexivity.
    + apply union_subseteq_r.
    + reflexivity.
  - pose proof (leave_state b now m ch c) as (-> & -> & -> & Hrest).
    split; [|split; [reflexivity|split; [reflexivity|]]].
    + intros k Hk. rewrite lookup_delete_ne by congruence.
      split; [reflexivity|].
      destruct Hrest as [[-> _] | (t & _ & _ & -> & _)]; [reflexivity|].
      apply lookup_insert_ne. congruence.
    + intros p Hp.
      destruct Hrest as [[_ ->] | (t & _ & _ & _ & ->)]; [reflexivity|].
      apply saved_totals_other, Hp.
Qed.

Lemma handler_synced b now m before after c :
  synced c → synced (on_voice_state_update b now m before after c).2.
Proof.
  unfold synced. intros Hs.
  destruct (handler_cases b now m before after c)
    as [-> | [[ch ->] | [ch ->]]].
  - exact Hs.
  - pose proof (enter_state b now m ch c) as (_ & _ & -> & -> & _).
    exact Hs.
  - pose proof (leave_state b now m ch c) as (_ & _ & _ & Hrest).
    destruct Hrest as [[-> ->] | (t & _ & _ & _ & ->)]; [exact Hs|].
    apply saved_totals_lookup.
Qed.

Lemma replay_synced b es c : synced c → synced (replay b es c).
Proof.
  revert c. induction es as [|e es IH]; intros c Hs; [exact Hs|].
  apply IH. apply handler_synced, Hs.
Qed.

Lemma daily_summary_synced b epoch order c :
  synced c → synced (daily_summary b epoch order c).2.
Proof.
  intros Hs. destruct (fires epoch c) eqn:Hf.
  - rewrite (daily_summary_fires b epoch order c Hf).
    pose proof (notify_frame b (Py.join Py.nl (msg_lines b order c)) c)
      as (_ & _ & Hd & _ & Hfs).
    destruct (notify b (Py.join Py.nl (msg_lines b order c)) c) as [[[]|e] c'].
    + change (synced (after_reset c')). unfold synced.
      pose proof (after_reset_state c') as (-> & _ & -> & _).
      unfold totals_text. rewrite map_to_list_empty. reflexivity.
    + simpl in *. unfold synced. rewrite Hd, Hfs. exact Hs.
  - rewrite daily_summary_idle by assumption. exact Hs.
Qed.

(** X2.  Once the totals document on disk is the one of the totals in
    memory, it stays so: after any sequence of presence events and after a
    rollover tick, whether the tick fires, stays idle or is ended by an
    exception of the notifier. *)
Theorem totals_document_in_sync b c :
  synced c →
  (∀ es, synced (replay b es c))
  ∧ (∀ epoch order, synced (daily_summary b epoch order c).2)
  ∧ (∀ es epoch order,
       synced (daily_summary b epoch order (replay b es c)).2).
Proof.
  intros Hs. split; [|split].
  - intros es. apply replay_synced, Hs.
  - intros epoch order. apply daily_summary_synced, Hs.
  - intros es epoch order. apply daily_summary_synced, replay_synced, Hs.
Qed.

End HandlerEffects.

Lemma totals_document_in_sync_witness :
  synced (FT := FracText.frac_text) Sample.alice_90
  ∧ synced (FT := FracText.frac_text)
      (replay (FT := FracText.frac_text) Sample.good_bot
         (session_events Sample.alice Sample.study (100%Q, 190%Q))
         Sample.alice_90).
Proof.
  split; [reflexivity|].
  apply (totals_document_in_sync (FT := FracText.frac_text) Sample.good_bot
           Sample.alice_90); reflexivity.
Defined.

(** ** Totals along a run *)

Section Runs.
Context {FT : FloatText}.

Lemma starts_before_later now now' c :
  (now <= now')%Q → starts_before now c → starts_before now' c.
Proof.
  intros Hle Hc k t Hk. apply (Qle_trans _ now); [apply (Hc k t Hk) | exact Hle].
Qed.

Lemma Qle_plus_nonneg (x d : Q) : (0 <= d)%Q → (x <= x + d)%Q.
Proof.
  intros Hd. apply (Qle_trans _ (x + 0)).
  - rewrite Qplus_0_r. apply Qle_refl.
  - apply Qplus_le_r, Hd.
Qed.

Lemma dispatch_monotone b e c :
  starts_before (ev_now e) c →
  (∀ k, (total_of c k <= total_of (dispatch b c e) k)%Q)
  ∧ starts_before (ev_now e) (dispatch b c e).
Proof.
  intros Hc. unfold dispatch.
  destruct (handler_cases b (ev_now e) (ev_member e) (ev_before e)
              (ev_after e) c) as [-> | [[ch ->] | [ch ->]]].
  - split; [intros k; apply Qle_refl | exact Hc].
  - pose proof (enter_state b (ev_now e) (ev_member e) ch c)
      as (Hj & _ & Hd & _).
    split.
    + intros k. unfold total_of. rewrite Hd. apply Qle_refl.
    + intros k t. rewrite Hj.
      destruct (decide (k = m_id (ev_member e))) as [-> | Hk].
      * rewrite lookup_insert_eq. intros [= <-]. apply Qle_refl.
      * rewrite lookup_insert_ne by congruence. apply Hc.
  - pose proof (leave_state b (ev_now e) (ev_member e) ch c)
      as (Hj & _ & _ & Hrest).
    split.
    + intros k. unfold total_of.
      destruct Hrest as [[-> _] | (t & Ht & _ & -> & _)];
        [apply Qle_refl|].
      destruct (decide (k = m_id (ev_member e))) as [-> | Hk].
      * rewrite lookup_insert_eq. simpl. apply Qle_plus_nonneg.
        unfold Qminus.
        apply (proj1 (Qle_minus_iff t (ev_now e))), (Hc _ _ Ht).
      * rewrite lookup_insert_ne by congruence. apply Qle_refl.
    + intros k t. rewrite Hj. intros Hk.
      apply lookup_delete_Some in Hk as [_ Hk]. apply (Hc k t Hk).
Qed.

(** X3.  Along presence events whose clock readings do not go back, and
    from a cog whose recorded start instants are not after the first
    reading, no member's total ever decreases; totals that start
    non-negative stay non-negative. *)
Theorem totals_never_decrease b t0 es c :
  clock_ordered t0 es → starts_before t0 c →
  (∀ k, (total_of c k <= total_of (replay b es c) k)%Q)
  ∧ ((∀ k, (0 <= total_of c k)%Q) →
     ∀ k, (0 <= total_of (replay b es c) k)%Q).
Proof.
  intros Hord Hc.
  assert (∀ k, (total_of c k <= total_of (replay b es c) k)%Q) as Hmono.
  { revert t0 c Hord Hc. induction es as [|e es IH]; intros t0 c Hord Hc k.
    - apply Qle_refl.
    - destruct Hord as [Hle Hord].
      pose proof (dispatch_monotone b e c
                    (starts_before_later _ _ _ Hle Hc)) as [Hstep Hc'].
      apply (Qle_trans _ (total_of (dispatch b c e) k)); [apply Hstep|].
      apply (IH (ev_now e) _ Hord Hc'). }
  split; [exact Hmono|].
  intros Hnn k. apply (Qle_trans _ (total_of c k)); [apply Hnn | apply Hmono].
Qed.

Lemma replay_app b es1 es2 c :
  replay b (es1 ++ es2) c = replay b es2 (replay b es1 c).
Proof. apply foldl_app. Qed.

(** The cog after one complete session. *)
Lemma session_state b m ch (times : Q * Q) c :
  m_bot m = false → ch_id ch = target_vc_id b → (0 < times.1)%Q →
  let c' := replay b (session_events m ch times) c in
  daily_total c'
  = <[m_id m := (total_of c (m_id m) + (times.2 - times.1))%Q]>
      (daily_total c)
  ∧ join_times c' = delete (m_id m) (join_times c)
  ∧ synced c'.
Proof.
  intros Hb Hid Hpos c'. subst c'. unfold replay, session_events, dispatch.
  cbn [foldl ev_now ev_member ev_before ev_after].
  rewrite (handler_enter b times.1 m {| vs_channel := None |}
             {| vs_channel := Some ch |} ch c Hb eq_refl eq_refl Hid).
  pose proof (enter_state b times.1 m ch c) as (Hj & _ & Hd & _).
  set (c1 := (enter b times.1 m ch c).2) in *.
  rewrite (handler_leave b times.2 m {| vs_channel := Some ch |}
             {| vs_channel := None |} ch c1 Hb eq_refl eq_refl Hid).
  assert (join_times c1 !! m_id m = Some times.1) as Hopen.
  { rewrite Hj. apply lookup_insert_eq. }
  pose proof (leave_open_state b times.2 m ch c1 times.1 Hopen
                (truthy_pos _ Hpos)) as (Hd' & Hj' & _ & Hf).
  split; [|split].
  - rewrite Hd'. unfold total_of. rewrite Hd. reflexivity.
  - rewrite Hj', Hj. apply delete_insert_eq.
  - exact Hf.
Qed.

(** X4.  Complete sessions of one member add up: after any number of
    enter/leave pairs, the member's total is the total before plus the
    durations [leave - enter] of the sessions, in order; the other members'
    totals are untouched, no session of the member stays open and the saved
    document holds the new totals. *)
Theorem sessions_accumulate b m ch (l : list (Q * Q)) c :
  m_bot m = false → ch_id ch = target_vc_id b →
  Forall (λ times, (0 < times.1)%Q) l →
  let c' := replay b (l ≫= session_events m ch) c in
  total_of c' (m_id m)
  = foldl (λ acc times, (acc + (times.2 - times.1))%Q)
      (total_of c (m_id m)) l
  ∧ (∀ k, k ≠ m_id m → daily_total c' !! k = daily_total c !! k)
  ∧ (l ≠ [] → join_times c' !! m_id m = None ∧ synced c').
Proof.
  intros Hb Hid Hl c'. subst c'.
  revert c. induction Hl as [|times l Hpos Hl IH]; intros c.
  - split; [reflexivity|]. split; [reflexivity | congruence].
  - rewrite bind_cons, replay_app.
    pose proof (session_state b m ch times c Hb Hid Hpos)
      as (Hd & Hj & Hs).
    set (c1 := replay b (session_events m ch times) c) in *.
    destruct (IH c1) as (Htot & Hother & Hclosed).
    assert (total_of c1 (m_id m)
            = (total_of c (m_id m) + (times.2 - times.1))%Q) as Hc1.
    { unfold total_of at 1. rewrite Hd, lookup_insert_eq. reflexivity. }
    split; [|split].
    + rewrite Htot, Hc1. reflexivity.
    + intros k Hk. rewrite (Hother k Hk), Hd.
      apply lookup_insert_ne. congruence.
    + intros _. destruct l as [|times' l'].
      * simpl. split; [|exact Hs]. rewrite Hj. apply lookup_delete_eq.
      * apply Hclosed. discriminate.
Qed.

End Runs.

Lemma totals_never_decrease_witness :
  (total_of Sample.alice_90 10
   <= total_of
        (replay (FT := FracText.frac_text) Sample.good_bot
           (session_events Sample.alice Sample.study (100%Q, 190%Q))
           Sample.alice_90) 10)%Q.
Proof.
  apply (totals_never_decrease (FT := FracText.frac_text) Sample.good_bot
           100%Q
           (session_events Sample.alice Sample.study (100%Q, 190%Q))
           Sample.alice_90).
  - simpl. repeat split; discriminate.
  - intros k t Hk. simpl in Hk. rewrite lookup_empty in Hk. discriminate.
Defined.

Lemma sessions_accumulate_witness :
  total_of
    (replay (FT := FracText.frac_text) Sample.good_bot
       ([(1000%Q, 1090%Q); (2000%Q, 2030%Q)]
          ≫= session_events Sample.alice Sample.study)
       Sample.fresh) 10
  = (0 + (1090 - 1000) + (2030 - 2000))%Q.
Proof.
  apply (sessions_accumulate (FT := FracText.frac_text) Sample.good_bot
           Sample.alice Sample.study [(1000%Q, 1090%Q); (2000%Q, 2030%Q)]
           Sample.fresh); [reflexivity | reflexivity |].
  repeat constructor.
Defined.

(** ** More on the notifier *)

Section NotifierMore.

(** [send_to_channel], outcome by outcome of the calls to Discord. *)
Lemma send_to_channel_outcome b id msg c :
  send_to_channel b id msg c
  = match resolve b id with
    | None =>
        (Return tt,
         with_trace (λ t, t ++ [Log ERROR "Send" "チャンネル取得に失敗: %s"]) c)
    | Some ch =>
        match send b ch msg true with
        | None => (Return tt, with_trace (λ t, t ++ [Sent ch msg true]) c)
        | Some TypeError =>
            match send b ch msg false with
            | None =>
                (Return tt, with_trace (λ t, t ++ [Sent ch msg false]) c)
            | Some e => (Raise e, c)
            end
        | Some Forbidden =>
            (Return tt,
             with_trace (λ t, t ++ [Log ERROR "Send"
                                      "送信権限が不足しています（Send Messages）。"])
               c)
        | Some (OtherException _) =>
            (Return tt,
             with_trace (λ t, t ++ [Log ERROR "Send" "通知送信失敗: %s"]) c)
        end
    end.
Proof.
  unfold send_to_channel, resolve. run_monad.
  repeat case_match; simplify_eq; reflexivity.
Qed.

Lemma with_trace_nil (c : cog) : c = with_trace (λ t, t ++ []) c.
Proof.
  symmetry. apply cog_eq; [repeat split|]. simpl. apply app_nil_r.
Qed.

(** X5.  One call of [notify] delivers at most one message, and only the
    text it was given: the trace grows by nothing (the fallback raised), by
    one log record, or by one [Sent] event that carries the message
    unchanged, to the resolved channel; a message sent without the
    [suppress_notifications] flag is the fallback after a [TypeError];
    nothing is delivered when the call raises.  The cog's other fields are
    untouched. *)
Theorem notify_at_most_once b msg c :
  ∃ evs, (notify b msg c).2 = with_trace (λ t, t ++ evs) c
    ∧ (length evs ≤ 1)%nat
    ∧ (∀ ch content flag, Sent ch content flag ∈ evs →
         content = msg ∧ (notify b msg c).1 = Return tt
         ∧ resolve b (default 0 (dest_channel_id c)) = Some ch
         ∧ (flag = false → send b ch msg true = Some TypeError))
    ∧ (∀ e, (notify b msg c).1 = Raise e → evs = []).
Proof.
  unfold notify. run_monad.
  destruct (Py.truthy_opt (dest_channel_id c)); simpl.
  - rewrite send_to_channel_outcome.
    destruct (resolve b (default 0 (dest_channel_id c))) as [ch|];
      [destruct (send b ch msg true) as [[| |name]|] eqn:Hs1;
         [destruct (send b ch msg false) as [e'|] eqn:Hs2| | |]|];
      simpl;
      try (eexists; split; [reflexivity|];
           split; [simpl; lia|]; split;
           [ intros ch' content flag Hin;
             apply list_elem_of_singleton in Hin;
             first [ discriminate Hin
                   | injection Hin as -> -> ->;
                     repeat split; try reflexivity;
                     first [ intros _; exact Hs1 | discriminate ] ]
           | intros e He; discriminate He ]).
    exists []. split; [apply with_trace_nil|]. split; [simpl; lia|].
    split; [|reflexivity].
    intros ch' content flag Hin. apply elem_of_nil in Hin as [].
  - eexists. split; [reflexivity|]. split; [simpl; lia|]. split.
    + intros ch content flag Hin. apply list_elem_of_singleton in Hin.
      discriminate.
    + intros e He. discriminate.
Qed.

End NotifierMore.

(** ** The summary text *)

Section Summary.
Context {FT : FloatText}.



End Summary.



(** ** More on the rollover *)

Section RolloverMore.
Context {FT : FloatText}.

Lemma notify_fails_quietly b msg c :
  fails_quietly b msg c →
  ∃ lvl logger text,
    notify b msg c
    = (Return tt, with_trace (λ t, t ++ [Log lvl logger text]) c).
Proof.
  intros Hq. unfold notify. run_monad.
  destruct (Py.truthy_opt (dest_channel_id c)) eqn:Hd; simpl.
  - rewrite send_to_channel_outcome.
    destruct Hq as [Hq | [Hq | (ch & e & Hr & Hs & He)]];
      [congruence | rewrite Hq; eauto |].
    rewrite Hr, Hs. destruct e; [congruence | eauto | eauto].
  - eauto.
Qed.

(** X6.  A summary that is not delivered is lost together with the totals:
    when the tick fires and the delivery fails quietly (no destination is
    configured, the channel cannot be resolved, or the send is refused),
    the tick still returns normally, clears the totals and the active set
    and saves the empty document, and no message has been sent. *)
Theorem rollover_resets_without_delivery b epoch order c :
  fires epoch c = true →
  fails_quietly b (Py.join Py.nl (msg_lines b order c)) c →
  let r := daily_summary b epoch order c in
  r.1 = Return tt
  ∧ daily_total r.2 = ∅ ∧ active_users r.2 = ∅
  ∧ files r.2 !! DAILY_TOTALS_PATH = Some "{}"
  ∧ filter is_sent (trace r.2) = filter is_sent (trace c).
Proof.
  intros Hf Hq r. subst r. rewrite (daily_summary_fires b epoch order c Hf).
  destruct (notify_fails_quietly b _ c Hq) as (lvl & logger & text & ->).
  simpl fst. simpl snd.
  pose proof (after_reset_state
                (with_trace (λ t, t ++ [Log lvl logger text]) c))
    as (Hd & Ha & Hfile & _).
  split; [reflexivity|]. split; [exact Hd|]. split; [exact Ha|].
  split; [exact Hfile|].
  unfold after_reset. simpl. rewrite !filter_app. simpl.
  rewrite !filter_cons_False, !filter_nil by (simpl; auto).
  rewrite !app_nil_r. reflexivity.
Qed.

(** X7.  A tick that returned normally has nothing left to do: the same
    tick run again on the cog it left is idle, so a second check within the
    cutoff minute sends no second summary. *)
Theorem rollover_idempotent b epoch order order' c :
  (daily_summary b epoch order c).1 = Return tt →
  daily_summary b epoch order' (daily_summary b epoch order c).2
  = (Return tt, (daily_summary b epoch order c).2).
Proof.
  intros Hret. apply daily_summary_idle.
  destruct (fires epoch c) eqn:Hf.
  - rewrite (daily_summary_fires b epoch order c Hf) in *.
    destruct (notify b (Py.join Py.nl (msg_lines b order c)) c) as [[[]|e] c'];
      [|discriminate].
    apply after_reset_state.
  - rewrite daily_summary_idle by assumption. exact Hf.
Qed.

(** X8.  The rollover does not touch open sessions.  A member who is inside
    across the cutoff keeps the start instant; the leave after the rollover
    credits the whole session, the part before the cutoff included, to the
    new totals, and the member is then not in the active set (which is
    filled at an enter only). *)
Theorem session_spans_rollover b epoch order now m ch c t :
  m_bot m = false → ch_id ch = target_vc_id b →
  join_times c !! m_id m = Some t → (0 < t)%Q →
  fires epoch c = true → (daily_summary b epoch order c).1 = Return tt →
  let c1 := (daily_summary b epoch order c).2 in
  let c2 := (on_voice_state_update b now m {| vs_channel := Some ch |}
               {| vs_channel := None |} c1).2 in
  join_times c1 = join_times c
  ∧ daily_total c2 = <[m_id m := (0 + (now - t))%Q]> ∅
  ∧ m_id m ∉ active_users c2.
Proof.
  intros Hb Hid Ht Hpos Hf Hret c1 c2. subst c2 c1.
  rewrite (daily_summary_fires b epoch order c Hf) in *.
  pose proof (notify_frame b (Py.join Py.nl (msg_lines b order c)) c)
    as (_ & Hj & _).
  destruct (notify b (Py.join Py.nl (msg_lines b order c)) c) as [[[]|e] c'];
    [|discriminate].
  simpl in Hj. simpl snd.
  pose proof (after_reset_state c') as (Hd & Ha & _ & Hj' & _).
  assert (join_times (after_reset c') !! m_id m = Some t) as Hopen
    by (rewrite Hj', Hj; exact Ht).
  split; [rewrite Hj'; exact Hj|].
  rewrite (handler_leave b now m {| vs_channel := Some ch |}
             {| vs_channel := None |} ch _ Hb eq_refl eq_refl Hid).
  pose proof (leave_open_state b now m ch _ t Hopen (truthy_pos t Hpos))
    as (-> & _ & -> & _).
  rewrite Hd, Ha, lookup_empty. split; [reflexivity|].
  apply not_elem_of_empty.
Qed.

(** X9.  The summary is made from the active set and from the totals of
    its members only: two cogs with the same active set and the same totals
    for the active members get the same header and footer and the same
    member lines, up to the order in which the two sets are iterated, and
    the same lines in the same places when the two orders agree, whatever
    totals the other members have.  (A firing tick then clears the totals
    of all members, listed or not.) *)
Theorem summary_ignores_inactive_totals b order order' c c' :
  iterates order c → iterates order' c' →
  active_users c = active_users c' →
  (∀ k, k ∈ active_users c → daily_total c !! k = daily_total c' !! k) →
  (∃ l l', msg_lines b order c
           = ["📊 **本日の勉強時間まとめ**"; EmptyString] ++ l
             ++ [EmptyString; "🌙今日もお疲れさまでした！"]
           ∧ msg_lines b order' c'
             = ["📊 **本日の勉強時間まとめ**"; EmptyString] ++ l'
               ++ [EmptyString; "🌙今日もお疲れさまでした！"]
           ∧ l ≡ₚ l' ∧ length l = size (active_users c))
  ∧ (order = order' → msg_lines b order c = msg_lines b order' c').
Proof.
  intros Hit Hit' Ha Hd.
  assert (summary_line b (daily_total c) <$> order
          = summary_line b (daily_total c') <$> order) as Hsame.
  { apply list_fmap_ext. intros i k Hk.
    apply list_elem_of_lookup_2 in Hk. rewrite Hit in Hk.
    apply elem_of_elements in Hk.
    unfold summary_line. rewrite (Hd k Hk). reflexivity. }
  split.
  - eexists _, _. split; [reflexivity|]. split; [reflexivity|]. split.
    + rewrite Hsame. apply fmap_Permutation.
      rewrite Hit, Hit', Ha. reflexivity.
    + rewrite length_fmap, Hit. reflexivity.
  - intros <-. unfold msg_lines. rewrite Hsame. reflexivity.
Qed.

End RolloverMore.

(** ** Configuration *)

Module UnicodeFacts.
Import Unicode.

Lemma in_ranges_spec ranges c :
  in_ranges ranges c = true ↔ ∃ r, r ∈ ranges ∧ r.1 <= c <= r.2.
Proof.
  unfold in_ranges. rewrite existsb_exists. split.
  - intros (r & Hin & Hr). exists r. rewrite list_elem_of_In.
    apply andb_true_iff in Hr as [H1 H2].
    apply Z.leb_le in H1, H2. auto.
  - intros (r & Hin & Hr). exists r. rewrite <- list_elem_of_In.
    split; [exact Hin|]. apply andb_true_iff. split; apply Z.leb_le; lia.
Qed.

Lemma todecimal_spec c d :
  todecimal c = Some d
  → ∃ zero, zero ∈ decimal_zeros ∧ zero <= c <= zero + 9 ∧ d = c - zero.
Proof.
  unfold todecimal.
  destruct (find _ decimal_zeros) as [zero|] eqn:Hfind; [|discriminate].
  intros [= <-]. apply find_some in Hfind as [Hin Hr].
  exists zero. rewrite list_elem_of_In.
  apply andb_true_iff in Hr as [H1 H2]. apply Z.leb_le in H1, H2. auto.
Qed.

Lemma todecimal_range c d : todecimal c = Some d → 0 <= d <= 9.
Proof. intros (zero & _ & Hr & ->)%todecimal_spec. lia. Qed.

Lemma todecimal_isdigit c d : todecimal c = Some d → isdigit c = true.
Proof.
  intros Hd. unfold isdigit. rewrite Hd.
  rewrite bool_decide_eq_true_2 by eauto. reflexivity.
Qed.

Lemma isdigit_interval c :
  isdigit c = true → ∃ r, r ∈ digit_intervals ∧ r.1 <= c <= r.2.
Proof.
  unfold isdigit. intros [Hd | Ho]%orb_true_iff.
  - apply bool_decide_eq_true in Hd as [d Hd].
    apply todecimal_spec in Hd as (zero & Hin & Hr & _).
    exists (zero, zero + 9). split; [|exact Hr].
    apply elem_of_app. left.
    apply (list_elem_of_fmap_2 (λ zero, (zero, zero + 9)) _ _ Hin).
  - apply in_ranges_spec in Ho as (r & Hin & Hr).
    exists r. split; [|exact Hr]. apply elem_of_app. right. exact Hin.
Qed.

Lemma intervals_apart :
  Forall (λ d : Z * Z,
            Forall (λ s : Z * Z, s.2 < d.1 ∨ d.2 < s.1) space_ranges)
         digit_intervals.
Proof.
  apply Forall_forall. intros d Hd. apply Forall_forall. intros s Hs.
  revert d Hd s Hs.
  apply (Forall_forall
           (λ d : Z * Z, ∀ s, s ∈ space_ranges → s.2 < d.1 ∨ d.2 < s.1)).
  assert (∀ d : Z * Z,
            forallb (λ s : Z * Z, (s.2 <? d.1) || (d.2 <? s.1)) space_ranges
            = true
            → ∀ s, s ∈ space_ranges → s.2 < d.1 ∨ d.2 < s.1) as Hone.
  { intros d Hall s Hs. rewrite forallb_forall in Hall.
    apply list_elem_of_In in Hs. specialize (Hall s Hs).
    apply orb_true_iff in Hall as [H | H]; apply Z.ltb_lt in H; auto. }
  apply Forall_forall. intros d Hd. apply Hone.
  assert (forallb (λ d : Z * Z,
            forallb (λ s : Z * Z, (s.2 <? d.1) || (d.2 <? s.1)) space_ranges)
            digit_intervals = true) as Hall by (vm_compute; reflexivity).
  rewrite forallb_forall in Hall. apply Hall, list_elem_of_In, Hd.
Qed.

(** No digit is white space. *)
Lemma isdigit_not_space c : isdigit c = true → isspace c = false.
Proof.
  intros (d & Hd & Hdr)%isdigit_interval.
  destruct (isspace c) eqn:Hs; [|reflexivity].
  apply in_ranges_spec in Hs as (s & Hs & Hsr).
  pose proof intervals_apart as Hap.
  rewrite Forall_forall in Hap. specialize (Hap d Hd).
  rewrite Forall_forall in Hap. specialize (Hap s Hs). lia.
Qed.

Lemma intervals_ascii :
  Forall (λ d : Z * Z, d = (48, 57) ∨ 127 <= d.1) digit_intervals.
Proof.
  assert (forallb (λ d : Z * Z,
                     ((d.1 =? 48) && (d.2 =? 57)) || (127 <=? d.1))
            digit_intervals = true) as Hall by (vm_compute; reflexivity).
  rewrite forallb_forall in Hall. apply Forall_forall. intros [lo hi] Hd.
  apply list_elem_of_In, Hall in Hd. simpl in *.
  apply orb_true_iff in Hd as [[H1 H2]%andb_true_iff | H].
  - apply Z.eqb_eq in H1, H2. left. congruence.
  - apply Z.leb_le in H. right. exact H.
Qed.

(** Below 127 the digits are the ASCII digits. *)
Lemma isdigit_ascii c :
  isdigit c = true → c < 127 → 48 <= c <= 57 ∧ todecimal c = Some (c - 48).
Proof.
  intros (d & Hd & Hdr)%isdigit_interval Hc.
  pose proof intervals_ascii as Hall. rewrite Forall_forall in Hall.
  destruct (Hall d Hd) as [-> | Hhigh]; [|lia]. simpl in Hdr.
  split; [exact Hdr|].
  unfold todecimal, decimal_zeros. cbn [find].
  replace ((48 <=? c) && (c <=? 48 + 9)) with true; [reflexivity|].
  symmetry. apply andb_true_iff. split; apply Z.leb_le; lia.
Qed.

End UnicodeFacts.

Module CfgFacts.
Import Cfg.

Section Strip.
Variable space : Z → bool.

Lemma rstrip_no_space s :
  forallb (λ c, negb (space c)) s = true → rstrip_by space s = s.
Proof.
  induction s as [|c s IH]; [reflexivity|]. simpl.
  rewrite andb_true_iff, negb_true_iff. intros [Hc Hs].
  rewrite (IH Hs). destruct s; [rewrite Hc|]; reflexivity.
Qed.

Lemma rstrip_all_space s :
  forallb space s = true → rstrip_by space s = [].
Proof.
  induction s as [|c s IH]; [reflexivity|]. simpl.
  rewrite andb_true_iff. intros [Hc Hs]. rewrite (IH Hs), Hc. reflexivity.
Qed.

Lemma rstrip_nil s : rstrip_by space s = [] → forallb space s = true.
Proof.
  induction s as [|c s IH]; [reflexivity|]. simpl.
  destruct (rstrip_by space s); [|discriminate].
  destruct (space c); [|discriminate]. intros _. apply IH. reflexivity.
Qed.

Lemma lstrip_all_space s :
  forallb space s = true → lstrip_by space s = [].
Proof.
  induction s as [|c s IH]; [reflexivity|]. simpl.
  rewrite andb_true_iff. intros [-> Hs]. apply IH, Hs.
Qed.

Lemma lstrip_head s :
  (lstrip_by space s = [] ∧ forallb space s = true)
  ∨ ∃ c rest, lstrip_by space s = c :: rest ∧ space c = false.
Proof.
  induction s as [|c s IH]; [left; split; reflexivity|]. simpl.
  destruct (space c) eqn:Hc; [exact IH|]. right. eauto.
Qed.

Lemma rstrip_head c s :
  space c = false → ∃ kept, rstrip_by space (c :: s) = c :: kept.
Proof.
  intros Hc. simpl. destruct (rstrip_by space s); [rewrite Hc|]; eauto.
Qed.

Lemma rstrip_idempotent s :
  rstrip_by space (rstrip_by space s) = rstrip_by space s.
Proof.
  induction s as [|c s IH]; [reflexivity|]. simpl.
  destruct (rstrip_by space s) as [|c' kept] eqn:Hr.
  - destruct (space c) eqn:Hc; [reflexivity|]. simpl. rewrite Hc.
    reflexivity.
  - simpl in *. rewrite IH. reflexivity.
Qed.

(** Nothing is left of a text exactly when it is white space only. *)
Lemma strip_nil_iff s : strip_by space s = [] ↔ forallb space s = true.
Proof.
  unfold strip_by. split.
  - intros Hnil.
    destruct (lstrip_head s) as [[_ Hall] | (c & rest & Hl & Hc)];
      [exact Hall|].
    rewrite Hl in Hnil. destruct (rstrip_head c rest Hc) as [kept Hk].
    congruence.
  - intros Hall. rewrite lstrip_all_space by exact Hall. reflexivity.
Qed.

Lemma strip_idempotent s :
  strip_by space (strip_by space s) = strip_by space s.
Proof.
  unfold strip_by.
  destruct (lstrip_head s) as [[-> _] | (c & rest & -> & Hc)];
    [reflexivity|].
  destruct (rstrip_head c rest Hc) as [kept Hk].
  rewrite Hk at 1. simpl lstrip_by. rewrite Hc. rewrite <- Hk.
  apply rstrip_idempotent.
Qed.

Lemma strip_no_space s :
  forallb (λ c, negb (space c)) s = true → strip_by space s = s.
Proof.
  intros Hs. unfold strip_by.
  assert (lstrip_by space s = s) as ->.
  { destruct s as [|c s]; [reflexivity|]. simpl in *.
    apply andb_true_iff in Hs as [Hc _]. apply negb_true_iff in Hc.
    rewrite Hc. reflexivity. }
  apply rstrip_no_space, Hs.
Qed.

(** What is left of a text starts and ends with a character that is no
    white space. *)
Lemma rstrip_last s c : last (rstrip_by space s) = Some c → space c = false.
Proof.
  revert c. induction s as [|x s IH]; intros c; [discriminate|]. simpl.
  destruct (rstrip_by space s) as [|y kept] eqn:Hr.
  - destruct (space x) eqn:Hx; [discriminate|]. simpl. congruence.
  - intros Hl. apply IH. rewrite <- Hl. reflexivity.
Qed.

Lemma strip_ends s c :
  (head (strip_by space s) = Some c ∨ last (strip_by space s) = Some c)
  → space c = false.
Proof.
  unfold strip_by. intros [Hh | Hl]; [|exact (rstrip_last _ _ Hl)].
  destruct (lstrip_head s) as [[Hnil _] | (x & rest & Hx & Hsp)].
  - rewrite Hnil in Hh. discriminate.
  - rewrite Hx in Hh. destruct (rstrip_head x rest Hsp) as [kept Hk].
    rewrite Hk in Hh. simpl in Hh. congruence.
Qed.

End Strip.

Lemma mapM_cons {A B} (f : A → option B) x l :
  mapM f (x :: l) = y ← f x; k ← mapM f l; Some (y :: k).
Proof. reflexivity. Qed.

(** On a digit the ASCII copy is the ASCII digit of its value, if it has
    one. *)
Lemma to_ascii_digit c :
  Unicode.isdigit c = true
  → to_ascii c = (λ d, 48 + d) <$> Unicode.todecimal c.
Proof.
  intros Hd. unfold to_ascii. destruct (c <? 127) eqn:Hc.
  - apply Z.ltb_lt in Hc.
    destruct (UnicodeFacts.isdigit_ascii c Hd Hc) as [_ ->]. simpl.
    f_equal. lia.
  - rewrite (UnicodeFacts.isdigit_not_space c Hd). reflexivity.
Qed.

Lemma to_ascii_digits s :
  forallb Unicode.isdigit s = true
  → mapM to_ascii s = fmap (λ d, 48 + d) <$> mapM Unicode.todecimal s.
Proof.
  induction s as [|c s IH]; [reflexivity|]. simpl forallb.
  rewrite andb_true_iff. intros [Hc Hs].
  rewrite !mapM_cons, (to_ascii_digit c Hc), (IH Hs).
  destruct (Unicode.todecimal c); [|reflexivity]. simpl.
  destruct (mapM Unicode.todecimal s); reflexivity.
Qed.

Lemma decimals_range s ds :
  mapM Unicode.todecimal s = Some ds
  → Forall (λ d, 0 <= d <= 9) ds ∧ length ds = length s.
Proof.
  revert ds. induction s as [|c s IH]; intros ds.
  - intros [= <-]. split; [constructor | reflexivity].
  - rewrite mapM_cons.
    destruct (Unicode.todecimal c) as [d|] eqn:Hd; [|discriminate].
    destruct (mapM Unicode.todecimal s) as [k|]; [|discriminate].
    intros [= <-]. destruct (IH k eq_refl) as [Hall Hlen]. split.
    + constructor; [exact (UnicodeFacts.todecimal_range c d Hd) | exact Hall].
    + simpl. rewrite Hlen. reflexivity.
Qed.

Lemma digits_of_digits ds :
  Forall (λ d, 0 <= d <= 9) ds
  → digits_of true ((λ d, 48 + d) <$> ds) = Some ds.
Proof.
  induction 1 as [|d ds Hd _ IH]; [reflexivity|].
  cbn [fmap list_fmap digits_of].
  replace ((48 <=? 48 + d) && (48 + d <=? 57)) with true
    by (symmetry; apply andb_true_iff; split; apply Z.leb_le; lia).
  change (list_fmap Z Z (λ d, 48 + d) ds) with ((λ d, 48 + d) <$> ds).
  rewrite IH. simpl. f_equal. f_equal. lia.
Qed.

Lemma digits_of_first ds :
  ds ≠ [] → Forall (λ d, 0 <= d <= 9) ds
  → digits_of false ((λ d, 48 + d) <$> ds) = Some ds.
Proof.
  intros Hne Hall. destruct Hall as [|d ds Hd Hall]; [congruence|].
  cbn [fmap list_fmap digits_of].
  replace ((48 <=? 48 + d) && (48 + d <=? 57)) with true
    by (symmetry; apply andb_true_iff; split; apply Z.leb_le; lia).
  change (list_fmap Z Z (λ d, 48 + d) ds) with ((λ d, 48 + d) <$> ds).
  rewrite (digits_of_digits ds Hall). simpl. f_equal. f_equal. lia.
Qed.

Lemma value_nonneg ds : Forall (λ d, 0 <= d <= 9) ds → 0 <= value ds.
Proof.
  unfold value. intros Hall.
  assert (∀ acc, 0 <= acc → 0 <= foldl (λ acc d, 10 * acc + d) acc ds)
    as Hacc.
  { induction Hall as [|d ds Hd _ IH]; intros acc Hacc; [exact Hacc|].
    simpl. apply IH. lia. }
  apply Hacc. lia.
Qed.

(** [int] on a text that passed [isdigit]: the number its decimal digits
    spell, unless a digit is not a decimal digit or there are too many. *)
Lemma int_isdigit s :
  isdigit s = true
  → int s = ds ← mapM Unicode.todecimal s;
            if (int_max_str_digits <? length ds)%nat then None
            else Some (value ds).
Proof.
  destruct s as [|c s]; [discriminate|]. unfold isdigit. intros Hs.
  unfold int. rewrite (to_ascii_digits _ Hs).
  destruct (mapM Unicode.todecimal (c :: s)) as [ds|] eqn:Hds;
    [|reflexivity].
  destruct (decimals_range _ _ Hds) as [Hall Hlen].
  assert (ds ≠ []) as Hne by (intros ->; discriminate Hlen).
  cbn [fmap option_fmap option_map mbind option_bind].
  assert (forallb (λ x, negb (c_isspace x)) ((λ d, 48 + d) <$> ds) = true)
    as Hnosp.
  { apply forallb_forall. intros x Hx. apply list_elem_of_In in Hx.
    apply list_elem_of_fmap in Hx as (d & -> & Hd).
    rewrite Forall_forall in Hall. specialize (Hall d Hd).
    unfold c_isspace. apply negb_true_iff, orb_false_iff. split.
    - apply andb_false_iff. right. apply Z.leb_gt. lia.
    - apply Z.eqb_neq. lia. }
  rewrite (strip_no_space _ _ Hnosp).
  assert (sign_and_body ((λ d, 48 + d) <$> ds)
          = (false, (λ d, 48 + d) <$> ds)) as ->.
  { destruct Hall as [|d ds Hd Hall]; [congruence|]. simpl.
    destruct (48 + d =? 45) eqn:H45; [apply Z.eqb_eq in H45; lia|].
    destruct (48 + d =? 43) eqn:H43; [apply Z.eqb_eq in H43; lia|].
    reflexivity. }
  rewrite (digits_of_first ds Hne Hall). reflexivity.
Qed.

(** When [int] rejects a text that passed [isdigit]. *)
Lemma int_isdigit_none_iff s :
  isdigit s = true
  → int s = None
    ↔ mapM Unicode.todecimal s = None
      ∨ (int_max_str_digits < length s)%nat.
Proof.
  intros Hs. rewrite (int_isdigit s Hs).
  destruct (mapM Unicode.todecimal s) as [ds|] eqn:Hds.
  - destruct (decimals_range _ _ Hds) as [_ Hlen]. simpl.
    rewrite <- Hlen.
    destruct (int_max_str_digits <? length ds)%nat eqn:Hlim.
    + apply Nat.ltb_lt in Hlim. split; [auto | reflexivity].
    + apply Nat.ltb_ge in Hlim. split; [discriminate|].
      intros [? | ?]; [discriminate | lia].
  - split; [auto | reflexivity].
Qed.

(** A number read from a text that passed [isdigit] is not negative. *)
Lemma int_isdigit_nonneg s n : isdigit s = true → int s = Some n → 0 <= n.
Proof.
  intros Hs. rewrite (int_isdigit s Hs).
  destruct (mapM Unicode.todecimal s) as [ds|] eqn:Hds; [|discriminate].
  simpl. destruct (int_max_str_digits <? length ds)%nat; [discriminate|].
  intros [= <-]. apply value_nonneg, (decimals_range _ _ Hds).
Qed.

End CfgFacts.

(** X10.  A configuration that [Config.load] returns is well formed.  The
    token is the stripped [DISCORD_TOKEN], not empty and without white
    space at its ends.  [TARGET_VOICE_CHANNEL_ID] is made of decimal digits
    only (of any script), at most 4300 of them, and the target channel id
    is the non-negative number they spell.  A guild id, if there is one, is
    the non-negative number read from an all-digit [GUILD_ID], and there is
    none exactly when [GUILD_ID] is unset or not all digits.  The port is
    what [int] reads from [PORT] (or from "8000"), and the log level is
    [LOG_LEVEL] (or "INFO") as it stands. *)
Theorem config_load_wellformed env cfg :
  Cfg.load env = inr cfg →
  let vc := default [] (env !! "TARGET_VOICE_CHANNEL_ID") in
  let gid := default [] (env !! "GUILD_ID") in
  Cfg.token cfg = Cfg.strip (default [] (env !! "DISCORD_TOKEN"))
  ∧ Cfg.token cfg ≠ []
  ∧ Cfg.strip (Cfg.token cfg) = Cfg.token cfg
  ∧ (∀ c, head (Cfg.token cfg) = Some c ∨ last (Cfg.token cfg) = Some c
          → Unicode.isspace c = false)
  ∧ Cfg.isdigit vc = true
  ∧ (∃ ds, mapM Unicode.todecimal vc = Some ds
           ∧ (length ds <= Cfg.int_max_str_digits)%nat
           ∧ Cfg.target_vc_id cfg = Cfg.value ds)
  ∧ 0 <= Cfg.target_vc_id cfg
  ∧ (∀ g, Cfg.guild_id cfg = Some g
          → 0 <= g ∧ Cfg.isdigit gid = true ∧ Cfg.int gid = Some g)
  ∧ (Cfg.guild_id cfg = None → Cfg.isdigit gid = false)
  ∧ Cfg.int (default (Unicode.lit "8000") (env !! "PORT"))
    = Some (Cfg.port cfg)
  ∧ Cfg.log_level cfg = default (Unicode.lit "INFO") (env !! "LOG_LEVEL").
Proof.
  intros Hload vc gid. revert Hload. unfold Cfg.load. fold vc gid.
  destruct (Cfg.strip (default [] (env !! "DISCORD_TOKEN")))
    as [|t0 trest] eqn:Htok; [discriminate|].
  destruct (Cfg.isdigit vc) eqn:Hvc; [|discriminate]. simpl negb. cbv iota.
  destruct (Cfg.int vc) as [n|] eqn:Hn; [|discriminate].
  assert (∃ ds, mapM Unicode.todecimal vc = Some ds
                ∧ (length ds <= Cfg.int_max_str_digits)%nat
                ∧ n = Cfg.value ds) as Hds.
  { rewrite (CfgFacts.int_isdigit vc Hvc) in Hn.
    destruct (mapM Unicode.todecimal vc) as [ds|]; [|discriminate].
    simpl in Hn.
    destruct (Cfg.int_max_str_digits <? length ds)%nat eqn:Hlen;
      [discriminate|].
    apply Nat.ltb_ge in Hlen. injection Hn as <-. eauto. }
  pose proof (CfgFacts.int_isdigit_nonneg vc n Hvc Hn) as Hpos.
  assert (Cfg.strip (t0 :: trest) = t0 :: trest) as Hidem.
  { rewrite <- Htok. apply CfgFacts.strip_idempotent. }
  assert (∀ c, head (t0 :: trest) = Some c ∨ last (t0 :: trest) = Some c
               → Unicode.isspace c = false) as Hends.
  { intros c. rewrite <- Htok. apply CfgFacts.strip_ends. }
  destruct (Cfg.isdigit gid) eqn:Hgid.
  - destruct (Cfg.int gid) as [g|] eqn:Hg; [|discriminate].
    destruct (Cfg.int (default (Unicode.lit "8000") (env !! "PORT")))
      as [p|]; [|discriminate].
    intros [= <-]. cbn [Cfg.token Cfg.target_vc_id Cfg.guild_id
                        Cfg.log_level Cfg.port].
    split; [reflexivity|]. split; [discriminate|].
    split; [exact Hidem|]. split; [exact Hends|].
    split; [reflexivity|]. split; [exact Hds|]. split; [exact Hpos|].
    split.
    { intros g' [= <-]. split; [|split; reflexivity].
      exact (CfgFacts.int_isdigit_nonneg gid g Hgid Hg). }
    split; [discriminate|]. split; reflexivity.
  - destruct (Cfg.int (default (Unicode.lit "8000") (env !! "PORT")))
      as [p|]; [|discriminate].
    intros [= <-]. cbn [Cfg.token Cfg.target_vc_id Cfg.guild_id
                        Cfg.log_level Cfg.port].
    split; [reflexivity|]. split; [discriminate|].
    split; [exact Hidem|]. split; [exact Hends|].
    split; [reflexivity|]. split; [exact Hds|]. split; [exact Hpos|].
    split; [discriminate|]. split; [reflexivity|]. split; reflexivity.
Qed.

(** X11.  The two required variables are checked first and in order.  The
    load ends with the [RuntimeError] of the token exactly when
    [DISCORD_TOKEN] is unset, empty or white space only, whatever the
    other variables hold.  With a token, it ends with the [RuntimeError]
    of the target exactly when [TARGET_VOICE_CHANNEL_ID] is unset or not
    made of digits only (a sign, a space or an underscore that [int] would
    accept included), whatever [GUILD_ID] and [PORT] hold.  A target that
    passes [isdigit] can still fail in [int], with [ValueError]: when one
    of its digits is not a decimal digit (a superscript two, say) or when
    it has more than 4300 digits.  Digits of other scripts are accepted:
    the full-width "１２" is the target 12. *)
Theorem config_load_required env :
  let token := default [] (env !! "DISCORD_TOKEN") in
  let vc := default [] (env !! "TARGET_VOICE_CHANNEL_ID") in
  (Cfg.load env = inl (Cfg.RuntimeError "DISCORD_TOKEN が未設定です。")
   ↔ forallb Unicode.isspace token = true)
  ∧ (Cfg.strip token ≠ [] →
     (Cfg.load env
      = inl (Cfg.RuntimeError
               "TARGET_VOICE_CHANNEL_ID が未設定または不正です。")
      ↔ Cfg.isdigit vc = false)
     ∧ (Cfg.isdigit vc = true → Cfg.int vc = None →
        Cfg.load env = inl Cfg.ValueError))
  ∧ (Cfg.isdigit vc = true →
     (Cfg.int vc = None
      ↔ mapM Unicode.todecimal vc = None
        ∨ (Cfg.int_max_str_digits < length vc)%nat))
  ∧ Cfg.isdigit (Unicode.lit "-5") = false
  ∧ Cfg.isdigit (Unicode.lit " 5") = false
  ∧ Cfg.isdigit (Unicode.lit "1_0") = false
  ∧ Cfg.int (Unicode.lit "1_0") = Some 10
  ∧ Cfg.isdigit (Unicode.lit "１２") = true
  ∧ Cfg.int (Unicode.lit "１２") = Some 12
  ∧ Cfg.isdigit (Unicode.lit "²") = true
  ∧ Cfg.int (Unicode.lit "²") = None.
Proof.
  intros token vc.
  split; [|split; [|split; [|repeat split; vm_compute; reflexivity]]].
  - rewrite <- (CfgFacts.strip_nil_iff Unicode.isspace token).
    fold (Cfg.strip token). unfold Cfg.load. fold token vc.
    destruct (Cfg.strip token) as [|t0 trest]; [tauto|].
    split; [|discriminate]. intros Hload. exfalso. revert Hload.
    destruct (Cfg.isdigit vc); simpl negb; cbv iota; [|discriminate].
    destruct (Cfg.int vc); [|discriminate].
    destruct (Cfg.isdigit (default [] (env !! "GUILD_ID")));
      [destruct (Cfg.int (default [] (env !! "GUILD_ID")));
         [|discriminate]|];
      destruct (Cfg.int (default (Unicode.lit "8000") (env !! "PORT")));
      discriminate.
  - intros Htok. unfold Cfg.load. fold token vc.
    destruct (Cfg.strip token) as [|t0 trest]; [congruence|]. split.
    + destruct (Cfg.isdigit vc); simpl negb; cbv iota;
        [|split; reflexivity].
      split; [|discriminate]. intros Hload. exfalso. revert Hload.
      destruct (Cfg.int vc); [|discriminate].
      destruct (Cfg.isdigit (default [] (env !! "GUILD_ID")));
        [destruct (Cfg.int (default [] (env !! "GUILD_ID")));
           [|discriminate]|];
        destruct (Cfg.int (default (Unicode.lit "8000") (env !! "PORT")));
        discriminate.
    + intros -> ->. reflexivity.
  - exact (CfgFacts.int_isdigit_none_iff vc).
Qed.

(** X12.  With the two required variables accepted, the outcome depends
    on the optional ones as follows.  The load ends with [ValueError]
    exactly when [GUILD_ID] passes [isdigit] and fails in [int] (a digit
    that is not decimal, or more than 4300 digits) or [int] cannot read
    [PORT]; otherwise it returns the configuration with the guild id read
    from an all-digit [GUILD_ID] and none for any other [GUILD_ID] (unset,
    a name, a signed number), with [LOG_LEVEL] as it stands and with the
    port read by [int], which accepts white space, a sign and underscores.
    Unset, [LOG_LEVEL] and [PORT] are "INFO" and 8000; an empty [PORT] is a
    [ValueError]. *)
Theorem config_load_optional env n :
  let token := default [] (env !! "DISCORD_TOKEN") in
  let vc := default [] (env !! "TARGET_VOICE_CHANNEL_ID") in
  let gid := default [] (env !! "GUILD_ID") in
  let port_text := default (Unicode.lit "8000") (env !! "PORT") in
  Cfg.strip token ≠ [] → Cfg.isdigit vc = true → Cfg.int vc = Some n →
  (Cfg.load env = inl Cfg.ValueError
   ↔ (Cfg.isdigit gid = true ∧ Cfg.int gid = None)
     ∨ Cfg.int port_text = None)
  ∧ (∀ port,
       Cfg.isdigit gid = false ∨ is_Some (Cfg.int gid) →
       Cfg.int port_text = Some port →
       Cfg.load env
       = inr {| Cfg.token := Cfg.strip token; Cfg.target_vc_id := n;
                Cfg.guild_id := if Cfg.isdigit gid then Cfg.int gid
                                else None;
                Cfg.log_level :=
                  default (Unicode.lit "INFO") (env !! "LOG_LEVEL");
                Cfg.port := port |})
  ∧ (env !! "PORT" = None → Cfg.int port_text = Some 8000)
  ∧ (env !! "PORT" = Some [] → Cfg.load env = inl Cfg.ValueError).
Proof.
  intros token vc gid port_text Htok Hvc Hn.
  assert (Cfg.load env
          = match (if Cfg.isdigit gid then
                     match Cfg.int gid with
                     | Some g => inr (Some g)
                     | None => inl Cfg.ValueError
                     end
                   else inr None) with
            | inl e => inl e
            | inr guild_id =>
                match Cfg.int port_text with
                | None => inl Cfg.ValueError
                | Some port =>
                    inr {| Cfg.token := Cfg.strip token;
                           Cfg.target_vc_id := n;
                           Cfg.guild_id := guild_id;
                           Cfg.log_level :=
                             default (Unicode.lit "INFO")
                               (env !! "LOG_LEVEL");
                           Cfg.port := port |}
                end
            end) as Hload.
  { unfold Cfg.load. fold token vc gid port_text.
    destruct (Cfg.strip token) as [|t0 trest]; [congruence|].
    rewrite Hvc, Hn. reflexivity. }
  assert (Cfg.load env = inl Cfg.ValueError
          ↔ (Cfg.isdigit gid = true ∧ Cfg.int gid = None)
            ∨ Cfg.int port_text = None) as Hfail.
  { rewrite Hload.
    destruct (Cfg.isdigit gid);
      [destruct (Cfg.int gid)|];
      destruct (Cfg.int port_text);
      split; try discriminate; try reflexivity; try tauto;
      intros [[? ?] | ?]; discriminate. }
  split; [exact Hfail|]. split; [|split].
  - intros port Hg Hp. rewrite Hload, Hp.
    destruct (Cfg.isdigit gid); [|reflexivity].
    destruct Hg as [? | [g Hg]]; [discriminate|]. rewrite Hg. reflexivity.
  - intros Hunset. subst port_text. rewrite Hunset. vm_compute. reflexivity.
  - intros Hempty. apply Hfail. right. subst port_text. rewrite Hempty.
    reflexivity.
Qed.

(** ** The config document *)

Module JsonXFacts.
Import Json JsonFacts JsonX.

#[local] Arguments String.append !_ _ / : simpl nomatch.

Lemma prun_fail (s : string) : prun PFail s = PFail.
Proof. induction s as [|c s IH]; [reflexivity | exact IH]. Qed.

Lemma xrun_app st (a b : string) : xrun st (a +:+ b) = xrun (xrun st a) b.
Proof.
  revert st. induction a as [|x a IH]; intros st; simpl;
    [reflexivity | apply IH].
Qed.

(** Where the scanner of [Json] succeeds, the extended scanner agrees. *)
Lemma xrun_prun (s : string) st :
  prun st s ≠ PFail → xrun (XBase st) s = XBase (prun st s).
Proof.
  revert st. induction s as [|c s IH]; intros st Hok; [reflexivity|].
  cbn [xrun prun] in *.
  assert (pstep st c ≠ PFail) as Hstep.
  { intros Hf. rewrite Hf, prun_fail in Hok. congruence. }
  assert (xstep (XBase st) c = XBase (pstep st c)) as ->.
  { destruct st; try reflexivity. simpl.
    destruct (Ascii.eqb c dquote) eqn:Hq; [|reflexivity].
    apply Ascii.eqb_eq in Hq. subst c. exfalso. apply Hstep. reflexivity. }
  apply IH, Hok.
Qed.

Lemma loads_flat_dumps_object (l : list (string * string)) :
  Forall readable l → loads_flat (dumps_object l) = Some l.
Proof.
  intros Hl. pose proof (loads_dumps_object l Hl) as Hbase.
  unfold loads_object in Hbase. unfold loads_flat.
  destruct (prun PStart (dumps_object l)) eqn:Hrun; try discriminate.
  rewrite xrun_prun by (rewrite Hrun; discriminate).
  rewrite Hrun. exact Hbase.
Qed.

(** A value that is a string is read back with its quotes. *)
Lemma xrun_string acc key s0 (s : string) rest :
  sforall str_char s = true →
  xrun (XStr acc key s0) (s +:+ String dquote rest)
  = xrun (XBase (PNext (acc ++ [(key, quoted (s0 +:+ s))]))) rest.
Proof.
  revert s0. induction s as [|c s IH]; intros s0 Hs.
  - simpl. rewrite append_nil_r. reflexivity.
  - simpl in Hs. apply andb_true_iff in Hs as [Hc Hs].
    unfold str_char in Hc. apply negb_true_iff in Hc.
    apply orb_false_iff in Hc as [Hc Hctl].
    apply orb_false_iff in Hc as [Hq Hb].
    cbn [String.append xrun xstep]. rewrite Hq, Hb, Hctl.
    rewrite (IH _ Hs). unfold snoc. rewrite append_assoc. reflexivity.
Qed.

Lemma prun_key_chars acc k0 (k : string) :
  sforall key_char k = true → prun (PKey acc k0) k = PKey acc (k0 +:+ k).
Proof.
  revert k0. induction k as [|c k IH]; intros k0 Hk.
  - simpl. rewrite append_nil_r. reflexivity.
  - simpl in Hk. apply andb_true_iff in Hk as [Hc Hk].
    unfold key_char in Hc. apply negb_true_iff, orb_false_iff in Hc
      as [Hq Hb].
    cbn [prun pstep]. rewrite Hq, Hb.
    rewrite (IH _ Hk). unfold snoc. rewrite append_assoc. reflexivity.
Qed.

Lemma loads_flat_string_value (key s : string) :
  sforall key_char key = true → sforall str_char s = true →
  loads_flat (dumps_object [(key, quoted s)]) = Some [(key, quoted s)].
Proof.
  intros Hkey Hs. unfold loads_flat.
  rewrite dumps_object_cons. cbn [fst snd more_items].
  match goal with
  | |- match xrun _ (_ +:+ _ +:+ _ +:+ String dquote ?tail) with _ => _ end
       = _ =>
      change (match xrun (XBase (PKey [] EmptyString)) tail with
              | XBase (PDone acc) => Some acc
              | _ => None
              end = Some [(key, quoted s)])
  end.
  rewrite xrun_app, xrun_prun
    by (rewrite (prun_key_chars [] EmptyString key Hkey); discriminate).
  rewrite (prun_key_chars [] EmptyString key Hkey).
  unfold quoted at 1.
  cbn [String.append xrun xstep]. simpl Ascii.eqb. simpl is_ws. cbn iota.
  rewrite append_assoc. cbn [String.append].
  rewrite (xrun_string [] key EmptyString s _ Hs). reflexivity.
Qed.

End JsonXFacts.

Module ConfigFacts.
Import Json JsonFacts JsonX JsonXFacts StrFacts.

#[local] Arguments String.append !_ _ / : simpl nomatch.

Lemma nrun_digits d : nrun NInt (NilEmpty.string_of_uint d) = NInt.
Proof. induction d; simpl; auto. Qed.

Lemma unorm_head u v : unorm u = D0 v → v = Nil.
Proof.
  induction u; simpl; try discriminate; auto.
  intros [= <-]. reflexivity.
Qed.

(** The decimal digits of a positive number start with a digit that is not
    zero. *)
Lemma to_uint_head (p : positive) :
  match Pos.to_uint p with
  | Nil | D0 _ => False
  | _ => True
  end.
Proof.
  assert (unorm (Pos.to_uint p) = Pos.to_uint p) as Hnorm.
  { rewrite <- DecimalPos.Unsigned.to_of, DecimalPos.Unsigned.of_to.
    reflexivity. }
  pose proof (DecimalPos.Unsigned.to_uint_nonzero p) as Hnz.
  destruct (Pos.to_uint p) as [|v| | | | | | | | |] eqn:Hp; try exact I.
  - discriminate Hnorm.
  - apply unorm_head in Hnorm. subst v. apply Hnz. reflexivity.
Qed.

(** The text of an integer is read as that integer. *)
Lemma value_of_int (n : Z) : value_of_token (Py.str n) = Some (VInt n).
Proof.
  assert (∀ tok, tok = Py.str n →
            value_of_token tok = VInt <$> Py.int_of_str tok) as Hshape.
  { intros tok ->. unfold Py.str, NilZero.string_of_int,
      NilZero.string_of_uint.
    destruct n as [|p|p]; [reflexivity| |];
      cbn [Z.to_int]; pose proof (to_uint_head p) as Hh;
      destruct (Pos.to_uint p) as [|v|v|v|v|v|v|v|v|v|v];
      try contradiction;
      unfold value_of_token; cbn [NilEmpty.string_of_uint];
      cbn [Ascii.eqb Bool.eqb String.eqb orb nrun nstep is_digit dquote];
      rewrite nrun_digits; reflexivity. }
  rewrite (Hshape _ eq_refl), int_of_str_str. reflexivity.
Qed.

Lemma config_member_readable (ch_id : option Z) :
  readable ("dest_channel_id",
            match ch_id with
            | Some n => Py.str n
            | None => "null"
            end).
Proof.
  split; [reflexivity|]. destruct ch_id as [n|]; simpl.
  - split; [apply str_nonempty|].
    apply (sforall_impl numeric); [apply numeric_plain | apply str_numeric].
  - split; [discriminate | reflexivity].
Qed.

Lemma load_saved_config (ch_id : option Z) fs :
  fs !! CONFIG_PATH = Some (config_text ch_id) →
  load_persisted_dest_channel_id fs = (ch_id, []).
Proof.
  intros Hfs. unfold load_persisted_dest_channel_id. rewrite Hfs.
  unfold load_flat, config_text.
  rewrite loads_flat_dumps_object
    by (constructor; [apply config_member_readable | constructor]).
  destruct ch_id as [n|]; cbn [mbind option_bind mapM fst snd];
    change (key_ok "dest_channel_id") with true; cbv iota.
  - rewrite value_of_int. reflexivity.
  - reflexivity.
Qed.

End ConfigFacts.

(** The files after the destination save. *)
Lemma saved_config_lookup (ch_id : option Z) fs :
  fs_run (save_persisted_dest_channel_id_ops ch_id) fs !! CONFIG_PATH
  = Some (config_text ch_id).
Proof.
  unfold fs_run, save_persisted_dest_channel_id_ops. simpl.
  rewrite lookup_alter_eq, lookup_insert_eq. simpl.
  apply lookup_insert_eq.
Qed.

Lemma saved_config_tmp (ch_id : option Z) fs :
  fs_run (save_persisted_dest_channel_id_ops ch_id) fs !! CONFIG_TMP_PATH
  = None.
Proof.
  assert (CONFIG_TMP_PATH ≠ CONFIG_PATH) as Hne by discriminate.
  unfold fs_run, save_persisted_dest_channel_id_ops. simpl.
  rewrite lookup_alter_eq, lookup_insert_eq. simpl.
  rewrite lookup_insert_ne by congruence. apply lookup_delete_eq.
Qed.

Lemma saved_config_other (ch_id : option Z) fs p :
  p ≠ CONFIG_PATH → p ≠ CONFIG_TMP_PATH →
  fs_run (save_persisted_dest_channel_id_ops ch_id) fs !! p = fs !! p.
Proof.
  intros Hp Hp'.
  unfold fs_run, save_persisted_dest_channel_id_ops. simpl.
  rewrite lookup_alter_eq, lookup_insert_eq. simpl.
  rewrite lookup_insert_ne, lookup_delete_ne by congruence.
  rewrite lookup_alter_ne, lookup_insert_ne by congruence. reflexivity.
Qed.

(** X13.  The destination survives a save and a load: for every
    destination, an id or none, [load_persisted_dest_channel_id] on the
    files that [save_persisted_dest_channel_id] leaves returns that
    destination and logs no failure; the temporary file is gone and no
    other file has changed. *)
Theorem dest_round_trip (ch_id : option Z) fs :
  let fs' := fs_run (save_persisted_dest_channel_id_ops ch_id) fs in
  load_persisted_dest_channel_id fs' = (ch_id, [])
  ∧ fs' !! CONFIG_TMP_PATH = None
  ∧ ∀ p, p ≠ CONFIG_PATH → p ≠ CONFIG_TMP_PATH → fs' !! p = fs !! p.
Proof.
  intros fs'. subst fs'. split; [|split].
  - apply ConfigFacts.load_saved_config, saved_config_lookup.
  - apply saved_config_tmp.
  - intros p Hp Hp'. apply saved_config_other; assumption.
Qed.

Module ConfigStringFacts.
Import Json JsonFacts JsonX JsonXFacts.

#[local] Arguments String.append !_ _ / : simpl nomatch.

Lemma drop_last_snoc (s : string) c :
  drop_last (s +:+ String c EmptyString) = s.
Proof.
  induction s as [|x s IH]; [reflexivity|].
  cbn [String.append drop_last]. rewrite IH.
  destruct s; reflexivity.
Qed.

Lemma value_of_quoted (s : string) :
  value_of_token (quoted s) = VStr <$> Unicode.decode s.
Proof.
  unfold quoted, value_of_token. rewrite Ascii.eqb_refl.
  rewrite drop_last_snoc. reflexivity.
Qed.

Lemma load_string_config (s : string) fs :
  sforall str_char s = true →
  fs !! CONFIG_PATH
  = Some (dumps_object [("dest_channel_id", quoted s)]) →
  load_persisted_dest_channel_id fs
  = match Unicode.decode s with
    | None => (None, [Log WARNING "Persist" "config.json 読み込み失敗: %s"])
    | Some u =>
        if Cfg.isdigit u then
          match Cfg.int u with
          | Some n => (Some n, [])
          | None =>
              (None, [Log WARNING "Persist" "config.json 読み込み失敗: %s"])
          end
        else (None, [])
    end.
Proof.
  intros Hs Hfs. unfold load_persisted_dest_channel_id. rewrite Hfs.
  unfold load_flat.
  rewrite (loads_flat_string_value "dest_channel_id" s eq_refl Hs).
  cbn [mbind option_bind mapM fst snd].
  change (key_ok "dest_channel_id") with true. cbv iota.
  rewrite value_of_quoted.
  destruct (Unicode.decode s) as [u|]; [|reflexivity].
  cbn [fmap option_fmap option_map mbind option_bind mret option_ret].
  change (JsonX.get "dest_channel_id" [("dest_channel_id", VStr u)])
    with (Some (VStr u)).
  cbv beta iota zeta.
  destruct (Cfg.isdigit u) eqn:Hd; [|reflexivity].
  destruct (Cfg.int u) eqn:Hi; reflexivity.
Qed.

End ConfigStringFacts.

(** X14.  A destination written as a string counts only when the string is
    made of digits.  For a config document whose ["dest_channel_id"] is the
    string [s] (of characters that need no escape): bytes that are not
    UTF-8 fail the load with a warning; a text that is not all digits (the
    empty text, "-5") gives no destination, without a warning; a text of
    digits gives the non-negative number that [int] reads, decimal digits
    of other scripts included; and a text of digits that [int] rejects,
    because a digit is not a decimal digit or there are more than 4300,
    gives no destination and the warning.  The integer -5, written without
    quotes, is accepted as it is. *)
Theorem dest_from_string (s : string) fs :
  sforall JsonX.str_char s = true →
  fs !! CONFIG_PATH
  = Some (Json.dumps_object [("dest_channel_id", Json.quoted s)]) →
  let failed := [Log WARNING "Persist" "config.json 読み込み失敗: %s"] in
  (Unicode.decode s = None →
   load_persisted_dest_channel_id fs = (None, failed))
  ∧ (∀ u, Unicode.decode s = Some u →
       (Cfg.isdigit u = false →
        load_persisted_dest_channel_id fs = (None, []))
       ∧ (Cfg.isdigit u = true →
          load_persisted_dest_channel_id fs
          = match Cfg.int u with
            | Some n => (Some n, [])
            | None => (None, failed)
            end
          ∧ (∀ n, Cfg.int u = Some n → 0 <= n)
          ∧ (Cfg.int u = None
             ↔ mapM Unicode.todecimal u = None
               ∨ (Cfg.int_max_str_digits < length u)%nat)))
  ∧ load_persisted_dest_channel_id
      {[CONFIG_PATH := Json.dumps_object [("dest_channel_id", "-5")]]}
    = (Some (-5), []).
Proof.
  intros Hs Hfs failed.
  pose proof (ConfigStringFacts.load_string_config s fs Hs Hfs) as Hload.
  split; [|split; [|reflexivity]].
  - intros Hdec. rewrite Hload, Hdec. reflexivity.
  - intros u Hdec. rewrite Hdec in Hload. split.
    + intros Hd. rewrite Hload, Hd. reflexivity.
    + intros Hd. rewrite Hd in Hload. split; [|split].
      * rewrite Hload. destruct (Cfg.int u); reflexivity.
      * intros n Hn. exact (CfgFacts.int_isdigit_nonneg u n Hd Hn).
      * exact (CfgFacts.int_isdigit_none_iff u Hd).
Qed.

Lemma dest_from_string_witness :
  load_persisted_dest_channel_id
    {[CONFIG_PATH :=
        Json.dumps_object [("dest_channel_id", Json.quoted "１２")]]}
  = (Some 12, []).
Proof.
  pose proof (dest_from_string "１２"
                {[CONFIG_PATH :=
                    Json.dumps_object
                      [("dest_channel_id", Json.quoted "１２")]]}
                eq_refl eq_refl) as (_ & Hdigits & _).
  destruct (Hdigits [0xff11; 0xff12] eq_refl) as (_ & Hd).
  destruct (Hd eq_refl) as (Hload & _). exact Hload.
Defined.

(** ** Restart and admin commands *)

Section Restart.
Context {FT : FloatText} {L : FloatTextLaws FT}.

Lemma spec_leave_no_session b now m before after c :
  spec_leave (target_vc_id b) before after →
  join_times c !! m_id m = None →
  on_voice_state_update b now m before after c = (Return tt, c).
Proof.
  intros [Hbefore Hafter] Hnone.
  destruct (m_bot m) eqn:Hb; [apply handler_bot, Hb|].
  destruct (vs_channel before) as [bch|] eqn:Hbf; [|discriminate].
  destruct (vs_channel after) as [ach|] eqn:Haf.
  - apply handler_ignored.
    + rewrite Hbf. intros [? _]. discriminate.
    + rewrite Haf. intros [_ ?]. discriminate.
  - rewrite (handler_leave b now m before after bch c Hb Hbf Haf)
      by (simpl in Hbefore; congruence).
    apply leave_no_session, Hnone.
Qed.

(** X15.  A restart keeps what is on disk and nothing else.  From a cog
    whose two documents are on disk, [__init__] on its files gives back the
    destination and the totals and logs nothing; the open sessions and the
    active set are empty.  So after a restart every leave is dropped, and
    the rollover stays idle at any time, with the totals still on record,
    until somebody enters. *)
Theorem restart_recovers c :
  persisted c →
  let c' := __init__ (files c) in
  dest_channel_id c' = dest_channel_id c
  ∧ daily_total c' = daily_total c
  ∧ join_times c' = ∅ ∧ active_users c' = ∅ ∧ trace c' = []
  ∧ persisted c'
  ∧ (∀ b now m before after,
       spec_leave (target_vc_id b) before after →
       on_voice_state_update b now m before after c' = (Return tt, c'))
  ∧ (∀ b epoch order, daily_summary b epoch order c' = (Return tt, c')).
Proof.
  intros [Hs Hcfg] c'. subst c'. unfold __init__.
  rewrite (ConfigFacts.load_saved_config _ _ Hcfg).
  rewrite (load_saved_text _ _ Hs). simpl.
  split; [reflexivity|]. split; [reflexivity|]. split; [reflexivity|].
  split; [reflexivity|]. split; [reflexivity|].
  split; [split; assumption|]. split.
  - intros b now m before after Hleave.
    apply spec_leave_no_session; [exact Hleave | apply lookup_empty].
  - intros b epoch order. apply daily_summary_idle. unfold fires. simpl.
    rewrite (bool_decide_eq_true_2 (∅ = ∅)) by reflexivity.
    apply andb_false_r.
Qed.

Lemma setchannel_eq i c :
  setchannel i c
  = (match send_message i "✅ 通知先を設定しました（保存済み）" true with
     | None => Return tt
     | Some e => Raise e
     end,
     with_trace
       (λ t, t ++ [Log INFO "Persist"
                     "通知先（dest_channel_id=%s）を保存しました。"])
       (with_files (fs_run (save_persisted_dest_channel_id_ops
                              (channel_id i)))
          (with_dest_channel_id (λ _, channel_id i) c))).
Proof.
  unfold setchannel, save_persisted_dest_channel_id, respond.
  destruct (send_message i "✅ 通知先を設定しました（保存済み）" true);
    reflexivity.
Qed.

(** X16.  [setchannel] takes effect and is durable whatever happens to the
    reply: the destination of the cog is the channel of the interaction, a
    load of the files returns it, the totals, the sessions, the active set
    and the totals document are untouched, and a cog whose totals document
    was in sync has both documents on disk afterwards.  The outcome of the
    command is the outcome of the reply. *)
Theorem setchannel_persists i c :
  let r := setchannel i c in
  dest_channel_id r.2 = channel_id i
  ∧ load_persisted_dest_channel_id (files r.2) = (channel_id i, [])
  ∧ join_times r.2 = join_times c ∧ daily_total r.2 = daily_total c
  ∧ active_users r.2 = active_users c
  ∧ files r.2 !! DAILY_TOTALS_PATH = files c !! DAILY_TOTALS_PATH
  ∧ (synced c → persisted r.2)
  ∧ r.1 = match send_message i "✅ 通知先を設定しました（保存済み）" true with
          | None => Return tt
          | Some e => Raise e
          end.
Proof.
  intros r. subst r. rewrite setchannel_eq.
  cbn [fst snd dest_channel_id join_times daily_total active_users files
       with_trace with_files with_dest_channel_id].
  pose proof (saved_config_lookup (channel_id i) (files c)) as Hcfg.
  pose proof (ConfigFacts.load_saved_config _ _ Hcfg) as Hload.
  assert (fs_run (save_persisted_dest_channel_id_ops (channel_id i))
            (files c) !! DAILY_TOTALS_PATH
          = files c !! DAILY_TOTALS_PATH) as Hd
    by (apply saved_config_other; discriminate).
  split; [reflexivity|]. split; [exact Hload|]. split; [reflexivity|].
  split; [reflexivity|]. split; [reflexivity|]. split; [exact Hd|].
  split; [|reflexivity].
  intros Hs. split.
  - unfold synced.
    cbn [daily_total files with_trace with_files with_dest_channel_id].
    rewrite Hd. exact Hs.
  - cbn [dest_channel_id files with_trace with_files with_dest_channel_id].
    exact Hcfg.
Qed.

End Restart.

Section AdminTest.

(** X17.  A destination set by [setchannel] is used at once.  After the
    command in channel [ch] (not 0), a [test] whose reply goes through
    hands the test message to the notifier for that channel: a channel
    that resolves and accepts the message gets exactly the test message,
    with the [suppress_notifications] flag, or by the plain send when the
    first send raises [TypeError] (a library without that keyword); an
    exception of the plain send leaves [test]; a channel that does not
    resolve or refuses the first send is logged.  After the command in a
    context without a channel (or with the id 0) the [test] sends nothing
    and logs that no destination is set; and a [test] whose reply fails
    does not reach the notifier at all. *)
Theorem test_after_setchannel b i i' c :
  let c1 := (setchannel i c).2 in
  let msg := "🔔 テスト通知：このチャンネルに届きます。" in
  let logged text := (Return tt, with_trace (λ t, t ++ [text]) c1) in
  (∀ e, send_message i' "送信テスト中…" true = Some e →
        test b i' c1 = (Raise e, c1))
  ∧ (send_message i' "送信テスト中…" true = None →
     (∀ ch, channel_id i = Some ch → ch ≠ 0 →
        test b i' c1
        = match resolve b ch with
          | None => logged (Log ERROR "Send" "チャンネル取得に失敗: %s")
          | Some h =>
              match send b h msg true with
              | None => logged (Sent h msg true)
              | Some TypeError =>
                  match send b h msg false with
                  | None => logged (Sent h msg false)
                  | Some e => (Raise e, c1)
                  end
              | Some Forbidden =>
                  logged (Log ERROR "Send"
                            "送信権限が不足しています（Send Messages）。")
              | Some (OtherException _) =>
                  logged (Log ERROR "Send" "通知送信失敗: %s")
              end
          end)
     ∧ (channel_id i = None ∨ channel_id i = Some 0 →
        test b i' c1
        = logged (Log WARNING "VcNotifier"
                    "通知先が未設定です。/admin setchannel を実行してください。"))).
Proof.
  intros c1 msg logged.
  assert (dest_channel_id c1 = channel_id i) as Hdest.
  { subst c1. rewrite setchannel_eq. reflexivity. }
  split.
  - intros e He. unfold test, respond. rewrite He. reflexivity.
  - intros Hreply.
    assert (test b i' c1 = notify b msg c1) as ->.
    { unfold test, respond. rewrite Hreply. reflexivity. }
    split.
    + intros ch Hch Hnz. unfold notify. run_monad.
      rewrite Hdest, Hch. simpl.
      destruct (ch =? 0) eqn:Hz; [apply Z.eqb_eq in Hz; congruence|].
      simpl. rewrite send_to_channel_outcome. reflexivity.
    + intros Hnone. apply notify_unconfigured. rewrite Hdest.
      destruct Hnone as [-> | ->]; reflexivity.
Qed.

End AdminTest.

(** ** Crash during the destination save *)

Lemma load_dest_ext fs fs' :
  fs' !! CONFIG_PATH = fs !! CONFIG_PATH →
  load_persisted_dest_channel_id fs' = load_persisted_dest_channel_id fs.
Proof.
  intros Heq. unfold load_persisted_dest_channel_id. rewrite Heq.
  reflexivity.
Qed.

(** X18.  A crash at any point of [save_persisted_dest_channel_id] does not
    lose the destination: after any prefix of the save's file-system calls,
    a load returns what it returned before the save, or the destination
    being saved. *)
Theorem dest_save_crash_safe (ch_id : option Z) fs (n : nat) :
  let fs' := fs_run (take n (save_persisted_dest_channel_id_ops ch_id)) fs in
  load_persisted_dest_channel_id fs' = load_persisted_dest_channel_id fs
  ∨ load_persisted_dest_channel_id fs' = (ch_id, []).
Proof.
  intros fs'. subst fs'.
  assert (CONFIG_TMP_PATH ≠ CONFIG_PATH) as Hne by discriminate.
  destruct n as [|[|[|n]]].
  - left. reflexivity.
  - left. apply load_dest_ext. unfold fs_run. simpl.
    apply lookup_insert_ne, Hne.
  - left. apply load_dest_ext. unfold fs_run. simpl.
    rewrite lookup_alter_ne, lookup_insert_ne by exact Hne. reflexivity.
  - right.
    replace (take (S (S (S n))) (save_persisted_dest_channel_id_ops ch_id))
      with (save_persisted_dest_channel_id_ops ch_id)
      by (unfold save_persisted_dest_channel_id_ops; simpl;
          rewrite take_nil; reflexivity).
    apply ConfigFacts.load_saved_config, saved_config_lookup.
Qed.

(** ** A totals document with a bad member *)

Module TotalsLoadFacts.

Lemma uint_of_char_letter c d :
  is_letter c = true → uint_of_char c d = None.
Proof.
  destruct d; [|reflexivity].
  destruct c as [[] [] [] [] [] [] [] []]; intros Hc;
    solve [reflexivity | discriminate Hc].
Qed.

Lemma uint_of_char_none c : uint_of_char c None = None.
Proof. reflexivity. Qed.

Lemma uint_of_string_letter (s : string) :
  sexists is_letter s = true → NilEmpty.uint_of_string s = None.
Proof.
  induction s as [|c s IH]; [discriminate|]. simpl.
  rewrite orb_true_iff. intros [Hc | Hs].
  - apply uint_of_char_letter, Hc.
  - rewrite (IH Hs). reflexivity.
Qed.

(** [int] of a text with a letter in it raises. *)
Lemma int_of_str_letter (s : string) :
  sexists is_letter s = true → Py.int_of_str s = None.
Proof.
  intros Hs. unfold Py.int_of_str, NilZero.int_of_string.
  destruct s as [|c s]; [reflexivity|].
  unfold NilZero.uint_of_string.
  destruct (Ascii.eqb c "-") eqn:Hminus.
  - apply Ascii.eqb_eq in Hminus. subst c. simpl in Hs.
    destruct s as [|c' s']; [reflexivity|].
    rewrite (uint_of_string_letter _ Hs). reflexivity.
  - rewrite (uint_of_string_letter _ Hs). reflexivity.
Qed.

Lemma dict_of_items_failed {FT : FloatText} (items : list (string * string)) :
  foldl (λ acc kv,
           d ← acc; k ← Py.int_of_str kv.1; v ← float_of_json kv.2;
           Some (<[k := v]> d))
        (None : option (gmap Z Q)) items
  = None.
Proof. induction items as [|kv items IH]; [reflexivity | exact IH]. Qed.

Lemma dict_of_items_bad_key {FT : FloatText}
    (items : list (string * string)) :
  Exists (λ kv, sexists is_letter kv.1 = true) items →
  dict_of_items items = None.
Proof.
  unfold dict_of_items. generalize (Some (∅ : gmap Z Q)) as acc.
  induction items as [|kv items IH]; intros acc Hex.
  - apply Exists_nil in Hex as [].
  - apply Exists_cons in Hex as [Hbad | Hex].
    + simpl. rewrite (int_of_str_letter _ Hbad).
      destruct acc; simpl; apply dict_of_items_failed.
    + simpl. apply IH, Hex.
Qed.

End TotalsLoadFacts.

(** X19.  The load of the totals is all or nothing.  A totals document that
    scans as a flat object but has one member whose key contains a letter
    (so that [int(k)] raises) loads as the empty mapping with a warning:
    the totals of the well-formed members are dropped with it. *)
Theorem totals_load_all_or_nothing {FT : FloatText}
    (items : list (string * string)) fs :
  Forall Json.readable items →
  Exists (λ kv, sexists is_letter kv.1
                = true) items →
  fs !! DAILY_TOTALS_PATH = Some (Json.dumps_object items) →
  _load_daily_totals fs
  = (∅, [Log WARNING "VcNotifier" "daily_totals.json 読み込み失敗: %s"]).
Proof.
  intros Hread Hbad Hfs. unfold _load_daily_totals. rewrite Hfs.
  rewrite (JsonFacts.loads_dumps_object items Hread). simpl.
  rewrite (TotalsLoadFacts.dict_of_items_bad_key items Hbad). reflexivity.
Qed.

Lemma totals_load_all_or_nothing_witness :
  _load_daily_totals (FT := FracText.frac_text)
    {[DAILY_TOTALS_PATH :=
        Json.dumps_object [("10", "90.0"); ("alice", "30.0")]]}
  = (∅, [Log WARNING "VcNotifier" "daily_totals.json 読み込み失敗: %s"]).
Proof.
  apply (totals_load_all_or_nothing (FT := FracText.frac_text)
           [("10", "90.0"); ("alice", "30.0")]).
  - repeat constructor; discriminate.
  - apply Exists_cons_tl, Exists_cons_hd. reflexivity.
  - reflexivity.
Defined.

(** ** The window of the cutoff *)

(** X20.  The rollover can fire during one minute of the day only, the same
    everywhere: a tick fires exactly when the clock, counted in seconds
    since 1970-01-01 00:00 UTC, is within the sixty seconds from 14:59:00
    UTC (23:59:00 at the fixed offset of nine hours) of some day, and the
    active set is not empty. *)
Theorem cutoff_window epoch c :
  fires epoch c = true
  ↔ 53940 <= epoch mod 86400 < 54000 ∧ active_users c ≠ ∅.
Proof.
  rewrite fires_utc.
  assert ((epoch / 3600) mod 24 = 14 ∧ (epoch / 60) mod 60 = 59
          ↔ 53940 <= epoch mod 86400 < 54000) as Harith.
  { pose proof (Z.div_mod epoch 86400 ltac:(lia)) as Hdm.
    pose proof (Z.mod_pos_bound epoch 86400 ltac:(lia)) as Hr.
    set (q := epoch / 86400) in *. set (r := epoch mod 86400) in *.
    assert (epoch / 3600 = 24 * q + r / 3600) as ->.
    { rewrite Hdm. replace (86400 * q + r) with (r + (24 * q) * 3600) by lia.
      rewrite Z.div_add by lia. lia. }
    assert (epoch / 60 = 1440 * q + r / 60) as ->.
    { rewrite Hdm. replace (86400 * q + r) with (r + (1440 * q) * 60) by lia.
      rewrite Z.div_add by lia. lia. }
    replace (24 * q + r / 3600) with (r / 3600 + q * 24) by lia.
    replace (1440 * q + r / 60) with (r / 60 + (24 * q) * 60) by lia.
    rewrite !Z.mod_add by lia.
    assert (0 <= r / 3600 < 24) as Hh.
    { split; [apply Z.div_pos; lia|].
      apply Z.div_lt_upper_bound; lia. }
    rewrite (Z.mod_small (r / 3600) 24) by exact Hh.
    pose proof (Z.div_mod r 3600 ltac:(lia)).
    pose proof (Z.mod_pos_bound r 3600 ltac:(lia)).
    pose proof (Z.div_mod r 60 ltac:(lia)).
    pose proof (Z.mod_pos_bound r 60 ltac:(lia)).
    pose proof (Z.div_mod (r / 60) 60 ltac:(lia)).
    pose proof (Z.mod_pos_bound (r / 60) 60 ltac:(lia)).
    split; [intros [H14 H59] | intros Hwin]; [lia|].
    assert (r / 3600 = 14) by lia.
    split; [assumption|]. lia. }
  rewrite <- Harith. tauto.
Qed.

(** ** Instances *)

Lemma rollover_resets_without_delivery_witness :
  let r := daily_summary (FT := FracText.frac_text) Sample.good_bot
             Sample.cutoff [10] More.no_destination in
  r.1 = Return tt ∧ daily_total r.2 = ∅.
Proof.
  pose proof (rollover_resets_without_delivery (FT := FracText.frac_text)
                Sample.good_bot Sample.cutoff [10] More.no_destination
                eq_refl (or_introl eq_refl)) as (Hret & Hd & _).
  split; [exact Hret | exact Hd].
Defined.

Lemma rollover_idempotent_witness :
  let c1 := (daily_summary (FT := FracText.frac_text) Sample.good_bot
               Sample.cutoff [10] Sample.alice_90).2 in
  daily_summary (FT := FracText.frac_text) Sample.good_bot Sample.cutoff []
    c1
  = (Return tt, c1).
Proof.
  apply (rollover_idempotent (FT := FracText.frac_text) Sample.good_bot
           Sample.cutoff [10] [] Sample.alice_90).
  reflexivity.
Defined.

Lemma session_spans_rollover_witness :
  let c1 := (daily_summary (FT := FracText.frac_text) Sample.good_bot
               Sample.cutoff [10] More.alice_across).2 in
  let c2 := (on_voice_state_update (FT := FracText.frac_text)
               Sample.good_bot 54100 Sample.alice Sample.in_study
               Sample.nowhere c1).2 in
  join_times c1 = join_times More.alice_across
  ∧ daily_total c2 = <[10 := (0 + (54100 - 100))%Q]> ∅
  ∧ 10 ∉ active_users c2.
Proof.
  apply (session_spans_rollover (FT := FracText.frac_text) Sample.good_bot
           Sample.cutoff [10] 54100 Sample.alice Sample.study More.alice_across
           100%Q); reflexivity.
Defined.

Lemma summary_ignores_inactive_totals_witness :
  msg_lines Sample.good_bot [10] Sample.alice_90
  = msg_lines Sample.good_bot [10] More.with_inactive_total.
Proof.
  apply (summary_ignores_inactive_totals Sample.good_bot [10] [10]
           Sample.alice_90 More.with_inactive_total);
    [ unfold iterates; simpl; rewrite elements_singleton; reflexivity
    | unfold iterates; simpl; rewrite elements_singleton; reflexivity
    | reflexivity | | reflexivity ].
  intros k Hk. simpl in Hk. apply elem_of_singleton in Hk. subst k.
  reflexivity.
Defined.

Lemma config_load_wellformed_witness :
  ∃ cfg, Cfg.load More.env = inr cfg
         ∧ Cfg.token cfg = Unicode.lit "secret"
         ∧ Cfg.target_vc_id cfg = 12 ∧ Cfg.guild_id cfg = None.
Proof.
  eexists. split; [vm_compute; reflexivity|].
  pose proof (config_load_wellformed More.env _ eq_refl)
    as (Htok & _ & _ & _ & _ & _ & _ & _ & _ & _ & _).
  split; [exact Htok|]. split; reflexivity.
Defined.

Lemma config_load_optional_witness :
  Cfg.load More.env
  = inr {| Cfg.token := Unicode.lit "secret"; Cfg.target_vc_id := 12;
           Cfg.guild_id := None; Cfg.log_level := Unicode.lit "INFO";
           Cfg.port := 8000 |}.
Proof.
  apply (config_load_optional More.env 12);
    [discriminate | reflexivity | reflexivity | left; reflexivity
    | reflexivity].
Defined.

Lemma restart_recovers_witness :
  let c' := __init__ (FT := FracText.frac_text) (files More.alice_across) in
  dest_channel_id c' = Some 7 ∧ daily_total c' = ∅.
Proof.
  pose proof (restart_recovers (L := FracTextFacts.frac_text_laws)
                More.alice_across (conj eq_refl eq_refl))
    as (Hdest & Htot & _).
  split; [exact Hdest | exact Htot].
Defined.
